(** * Hopping Bunny: a shallow embedding of the simulation core

    Platforms, the platform manager (generation, per-frame update, collision
    scan), and the parts of [Game] that keep score, difficulty, the camera and
    the restart logic.  JavaScript numbers are idealised as rationals [Q]
    except in module [Recovery], whose claim is about non-finite values and
    which therefore carries NaN and the infinities explicitly.  Scores are
    integers ([Z]): they are always produced by [Math.floor].

    Randomness ([Math.random], [Utils.randomBetween]) is made explicit: every
    function that draws takes its draws as arguments. *)

From Stdlib Require Import QArith Qabs Qminmax Lqa ZArith Lia List Bool.
From Stdlib Require Import Sorted Permutation Ascii.
Import ListNotations.

Open Scope Q_scope.

(** JavaScript's [a <= b] / [a < b] / [a >= b] on finite numbers. *)
Definition qle (a b : Q) : bool := Qle_bool a b.
Definition qlt (a b : Q) : bool := negb (Qle_bool b a).

(** ** Platforms (class [Platform]) *)

(** The five platform types named in the constructor's documentation. *)
Inductive ptype := normal | bouncy | breakable | moving | disappearing.

Definition ptype_eqb (a b : ptype) : bool :=
  match a, b with
  | normal, normal | bouncy, bouncy | breakable, breakable
  | moving, moving | disappearing, disappearing => true
  | _, _ => false
  end.

(** The fields of a platform object (the colour table is drawing data and is
    left out). *)
Record Platform := mkPlatformRec {
  x : Q; y : Q; width : Q; height : Q;
  type : ptype;
  active : bool;
  opacity : Q;
  breakProgress : Q;
  direction : Q;
  velocityX : Q;
  maxVelocityX : Q;
  disappearTimer : Q;
  animationTime : Q
}.

(** [new Platform(x, y, width, height, type)]; [dir_draw] is the
    [Math.random()] the constructor draws for [direction]. *)
Definition newPlatform (x0 y0 w h : Q) (t : ptype) (dir_draw : Q) : Platform :=
  {| x := x0; y := y0; width := w; height := h; type := t; active := true;
     opacity := 1; breakProgress := 0;
     direction := if qlt (1#2) dir_draw then 1 else -1;
     velocityX := 0; maxVelocityX := 2; disappearTimer := 0;
     animationTime := 0 |}.

(** [Platform.update(deltaTime, canvasWidth)]. *)
Definition platform_update (deltaTime canvasWidth : Q) (p : Platform) : Platform :=
  let p := {| x := x p; y := y p; width := width p; height := height p;
              type := type p; active := active p; opacity := opacity p;
              breakProgress := breakProgress p; direction := direction p;
              velocityX := velocityX p; maxVelocityX := maxVelocityX p;
              disappearTimer := disappearTimer p;
              animationTime := animationTime p + deltaTime * (1#100) |} in
  match type p with
  | moving =>
      let vX := direction p * maxVelocityX p in
      let x' := x p + vX in
      let dir' := if qle x' 0 || qle canvasWidth (x' + width p)
                  then direction p * -1 else direction p in
      {| x := x'; y := y p; width := width p; height := height p;
         type := type p; active := active p; opacity := opacity p;
         breakProgress := breakProgress p; direction := dir';
         velocityX := vX; maxVelocityX := maxVelocityX p;
         disappearTimer := disappearTimer p; animationTime := animationTime p |}
  | breakable =>
      if qlt 0 (breakProgress p) then
        let bp := breakProgress p + deltaTime * (5#100) in
        {| x := x p; y := y p; width := width p; height := height p;
           type := type p;
           active := if qle 1 bp then false else active p;
           opacity := 1 - bp; breakProgress := bp; direction := direction p;
           velocityX := velocityX p; maxVelocityX := maxVelocityX p;
           disappearTimer := disappearTimer p;
           animationTime := animationTime p |}
      else p
  | disappearing =>
      if qlt 0 (disappearTimer p) then
        let t := disappearTimer p + deltaTime in
        {| x := x p; y := y p; width := width p; height := height p;
           type := type p;
           active := if qle 60 t then false else active p;
           opacity := 1 - t / 60; breakProgress := breakProgress p;
           direction := direction p; velocityX := velocityX p;
           maxVelocityX := maxVelocityX p; disappearTimer := t;
           animationTime := animationTime p |}
      else p
  | normal | bouncy => p
  end.

(** [Platform.break()] and [Platform.startDisappearing()]. *)
Definition platform_break (p : Platform) : Platform :=
  match type p with
  | breakable =>
      {| x := x p; y := y p; width := width p; height := height p;
         type := type p; active := active p; opacity := opacity p;
         breakProgress := 1#100; direction := direction p;
         velocityX := velocityX p; maxVelocityX := maxVelocityX p;
         disappearTimer := disappearTimer p; animationTime := animationTime p |}
  | _ => p
  end.

Definition platform_startDisappearing (p : Platform) : Platform :=
  match type p with
  | disappearing =>
      {| x := x p; y := y p; width := width p; height := height p;
         type := type p; active := active p; opacity := opacity p;
         breakProgress := breakProgress p; direction := direction p;
         velocityX := velocityX p; maxVelocityX := maxVelocityX p;
         disappearTimer := 1#100; animationTime := animationTime p |}
  | _ => p
  end.

(** ** Random draws *)

(** Modelled from the spec: [Utils.randomBetween] is not in src.  Section 4.1
    says it picks uniformly from [min, max]; [u] is the underlying uniform
    draw in [0, 1]. *)
Definition randomBetween (u min max : Q) : Q := min + u * (max - min).

Definition unit_draw (u : Q) : Prop := 0 <= u <= 1.

(** The draws of one call to [generatePlatform], in the order the code makes
    them: the three [randomBetween] calls, the [Math.random()] calls of the
    type selection, and the one of the [Platform] constructor. *)
Record GenRand := mkGenRand {
  r_gap : Q; r_width : Q; r_x : Q;
  r_special : Q; r_rand : Q; r_fallback : Q; r_window : Q;
  r_dir : Q
}.

(** The draws for one density-filler platform of [PlatformManager.update]. *)
Record FillRand := mkFillRand { f_y : Q; f_width : Q; f_x : Q; f_dir : Q }.

(** ** The platform manager (class [PlatformManager]) *)

Record Manager := mkManager {
  canvasWidth : Q;
  canvasHeight : Q;
  platforms : list Platform;
  minPlatformWidth : Q;
  maxPlatformWidth : Q;
  platformHeight : Q;
  minGapY : Q;
  maxGapY : Q;
  specialPlatformChance : Q;
  highestPlatformY : Q;
  platformDensity : Q;
  density : Q;
  minWidth : Q;
  maxWidth : Q
}.

(** Assignments to [this.platforms] and [this.highestPlatformY]. *)
Definition set_platforms (ps : list Platform) (m : Manager) : Manager :=
  {| canvasWidth := canvasWidth m; canvasHeight := canvasHeight m;
     platforms := ps; minPlatformWidth := minPlatformWidth m;
     maxPlatformWidth := maxPlatformWidth m; platformHeight := platformHeight m;
     minGapY := minGapY m; maxGapY := maxGapY m;
     specialPlatformChance := specialPlatformChance m;
     highestPlatformY := highestPlatformY m;
     platformDensity := platformDensity m; density := density m;
     minWidth := minWidth m; maxWidth := maxWidth m |}.

Definition set_highestPlatformY (h : Q) (m : Manager) : Manager :=
  {| canvasWidth := canvasWidth m; canvasHeight := canvasHeight m;
     platforms := platforms m; minPlatformWidth := minPlatformWidth m;
     maxPlatformWidth := maxPlatformWidth m; platformHeight := platformHeight m;
     minGapY := minGapY m; maxGapY := maxGapY m;
     specialPlatformChance := specialPlatformChance m;
     highestPlatformY := h;
     platformDensity := platformDensity m; density := density m;
     minWidth := minWidth m; maxWidth := maxWidth m |}.

(** [this.platforms.push(p)]. *)
Definition push_platform (p : Platform) (m : Manager) : Manager :=
  set_platforms (platforms m ++ [p]) m.

(** [arr.slice(-n)]: the last [n] elements (all of them if fewer). *)
Definition slice_last (n : nat) (l : list Platform) : list Platform :=
  skipn (length l - n) l.

Definition includes (t : ptype) (ts : list ptype) : bool :=
  existsb (ptype_eqb t) ts.

(** The score-banded weighted choice of a special type. *)
Definition special_type (score rand : Q) : ptype :=
  if qlt score 300 then
    (if qlt rand (6#10) then bouncy
     else if qlt rand (9#10) then moving
     else normal)
  else if qlt score 1000 then
    (if qlt rand (4#10) then bouncy
     else if qlt rand (7#10) then moving
     else if qlt rand (9#10) then breakable
     else disappearing)
  else
    (if qlt rand (25#100) then bouncy
     else if qlt rand (5#10) then moving
     else if qlt rand (75#100) then breakable
     else disappearing).

(** The type selection of [generatePlatform] for a platform at [newY]. *)
Definition select_type (ps : list Platform) (newY : Q) (r : GenRand) : ptype :=
  let score := Qabs newY / 10 in
  let specialChance := Qmin (6#10) ((2#10) + score / 1000) in
  if qlt (r_special r) specialChance then
    let t := special_type score (r_rand r) in
    let lastFewTypes := map type (slice_last 3 ps) in
    let t :=
      if ptype_eqb t disappearing && includes disappearing lastFewTypes
      then normal
      else if ptype_eqb t breakable && includes breakable lastFewTypes
              && includes disappearing lastFewTypes
      then (if qlt (r_fallback r) (1#2) then bouncy else normal)
      else t in
    if qle 300 score && qle score 310
    then (if qlt (r_window r) (7#10) then normal else bouncy)
    else t
  else normal.

(** [PlatformManager.generatePlatform()]: the updated manager and the platform
    it returns. *)
Definition generatePlatform (m : Manager) (r : GenRand) : Manager * Platform :=
  let gap := randomBetween (r_gap r) (minGapY m) (maxGapY m) in
  let newY := highestPlatformY m - gap in
  let m := set_highestPlatformY newY m in
  let w := randomBetween (r_width r) (minWidth m) (maxWidth m) in
  let x0 := randomBetween (r_x r) 0 (canvasWidth m - w) in
  let t := select_type (platforms m) newY r in
  let p := newPlatform x0 newY w (platformHeight m) t (r_dir r) in
  (push_platform p m, p).

(** The [while] loop of [PlatformManager.update]: generate while the frontier
    is below [target]; the [k]-th generated platform uses draws [rs k].  The
    loop is run with [fuel] iterations at most; [None] means the fuel ran out
    with the loop condition still true. *)
Fixpoint gen_while (fuel : nat) (target : Q) (rs : nat -> GenRand) (k : nat)
    (m : Manager) : option (Manager * list Platform) :=
  if qlt target (highestPlatformY m) then
    match fuel with
    | O => None
    | S f =>
        let '(m1, p) := generatePlatform m (rs k) in
        match gen_while f target rs (S k) m1 with
        | Some (m2, ps) => Some (m2, p :: ps)
        | None => None
        end
    end
  else Some (m, []).

(** One density-filler platform. *)
Definition fill_platform (m : Manager) (cameraY : Q) (r : FillRand) : Platform :=
  let y0 := cameraY + randomBetween (f_y r) 100 (canvasHeight m - 100) in
  let w := randomBetween (f_width r) (minWidth m) (maxWidth m) in
  let x0 := randomBetween (f_x r) 0 (canvasWidth m - w) in
  newPlatform x0 y0 w (platformHeight m) normal (f_dir r).

(** The first stage of [update]: each platform is updated, and the inactive
    ones and those far below the camera are spliced out.  The backward loop
    with [splice] keeps the order of the remaining platforms. *)
Definition keep_platform (m : Manager) (cameraY : Q) (p : Platform) : bool :=
  active p && qle (y p) (cameraY + canvasHeight m + 300).

Definition update_existing (deltaTime cameraY : Q) (m : Manager) : Manager :=
  set_platforms
    (filter (keep_platform m cameraY)
       (map (platform_update deltaTime (canvasWidth m)) (platforms m))) m.

Definition density_fill (cameraY : Q) (fills : FillRand * FillRand)
    (m : Manager) : Manager :=
  let visible := filter (fun p => qle (cameraY - 100) (y p)
                                  && qle (y p) (cameraY + canvasHeight m + 100))
                        (platforms m) in
  if qlt (inject_Z (Z.of_nat (length visible))) (density m * platformDensity m)
  then
    let m := push_platform (fill_platform m cameraY (fst fills)) m in
    push_platform (fill_platform m cameraY (snd fills)) m
  else m.

(** [PlatformManager.update(deltaTime, cameraY)], together with the list of
    platforms generated by its loop (in generation order). *)
Definition update_gen (fuel : nat) (deltaTime cameraY : Q) (rs : nat -> GenRand)
    (fills : FillRand * FillRand) (m : Manager)
    : option (Manager * list Platform) :=
  let m := update_existing deltaTime cameraY m in
  match gen_while fuel (cameraY - canvasHeight m * 2) rs 0 m with
  | Some (m, gen) => Some (density_fill cameraY fills m, gen)
  | None => None
  end.

Definition update (fuel : nat) (deltaTime cameraY : Q) (rs : nat -> GenRand)
    (fills : FillRand * FillRand) (m : Manager) : option Manager :=
  option_map fst (update_gen fuel deltaTime cameraY rs fills m).

(** [this.platformManager] part of [Game.increaseDifficulty] at level [d]. *)
Definition manager_difficulty (d : Z) (m : Manager) : Manager :=
  let d := inject_Z d in
  let platformReduction := Qmin (d - 1) 5 in
  let widthReduction := Qmin ((d - 1) * 10) 40 in
  let heightReduction := Qmin ((d - 1) * 2) 10 in
  {| canvasWidth := canvasWidth m; canvasHeight := canvasHeight m;
     platforms := platforms m; minPlatformWidth := minPlatformWidth m;
     maxPlatformWidth := maxPlatformWidth m;
     platformHeight := Qmax (20 - heightReduction) 10;
     minGapY := minGapY m; maxGapY := maxGapY m;
     specialPlatformChance := specialPlatformChance m;
     highestPlatformY := highestPlatformY m;
     platformDensity := platformDensity m;
     density := Qmax (10 - platformReduction) 5;
     minWidth := Qmax (60 - widthReduction) 20;
     maxWidth := Qmax (120 - widthReduction) 60 |}.

(** *** Construction *)

(** The field initialisers of [new PlatformManager(canvasWidth, canvasHeight)]
    before [generateInitialPlatforms] runs. *)
Definition manager_fields (cw ch : Q) : Manager :=
  {| canvasWidth := cw; canvasHeight := ch; platforms := [];
     minPlatformWidth := 80; maxPlatformWidth := 150; platformHeight := 20;
     minGapY := 70; maxGapY := 110; specialPlatformChance := 3#10;
     highestPlatformY := ch; platformDensity := 1; density := 10;
     minWidth := 60; maxWidth := 120 |}.

(** The loop [for (let i = 0; i < 5; i++)] of [generateInitialPlatforms],
    from iteration [i] on, [n] iterations left; [draws i] are the draws of
    [randomBetween] and of the constructor in iteration [i]. *)
Fixpoint initial_rows (n i : nat) (draws : nat -> Q * Q) (m : Manager)
    : Manager :=
  match n with
  | O => m
  | S n' =>
      let x0 := randomBetween (fst (draws i)) 0 (canvasWidth m - 100) in
      let y0 := canvasHeight m - 200 - inject_Z (Z.of_nat i) * 70 in
      let p := newPlatform x0 y0 100 (platformHeight m) normal (snd (draws i)) in
      let m := push_platform p m in
      let m := set_highestPlatformY (Qmin (highestPlatformY m) y0) m in
      initial_rows n' (S i) draws m
  end.

(** [n] successive calls of [generatePlatform], the [k]-th with [rs k]. *)
Fixpoint generate_n (n : nat) (rs : nat -> GenRand) (k : nat) (m : Manager)
    : Manager :=
  match n with
  | O => m
  | S n' => generate_n n' rs (S k) (fst (generatePlatform m (rs k)))
  end.

(** All draws made by the constructor. *)
Record InitRand := mkInitRand {
  i_start_dir : Q;
  i_rows : nat -> Q * Q;
  i_gen : nat -> GenRand
}.

(** [generateInitialPlatforms(count)]: the start platform, five rows, then the
    loop [for (let i = 6; i < count + 5; i++)], i.e. [count - 1] calls. *)
Definition generateInitialPlatforms (count : nat) (r : InitRand) (m : Manager)
    : Manager :=
  let start := newPlatform (canvasWidth m / 2 - 75) (canvasHeight m - 100) 150
                 (platformHeight m) normal (i_start_dir r) in
  let m := push_platform start m in
  let m := set_highestPlatformY (y start) m in
  let m := initial_rows 5 0 (i_rows r) m in
  generate_n (count + 5 - 6) (i_gen r) 0 m.

Definition newPlatformManager (cw ch : Q) (count : nat) (r : InitRand)
    : Manager :=
  generateInitialPlatforms count r (manager_fields cw ch).

(** *** Traces of manager operations *)

(** What can happen to a platform manager during a run: a direct call of
    [generatePlatform], a frame's [update], a [push] by [Game] (the starting
    platform of [initEntities], the safety platforms of [update] and
    [forcePlayerVisibility]), and a difficulty increase. *)
Inductive Op :=
| OpGenerate (r : GenRand)
| OpUpdate (fuel : nat) (deltaTime cameraY : Q) (rs : nat -> GenRand)
           (fills : FillRand * FillRand)
| OpPush (p : Platform)
| OpDifficulty (d : Z).

(** One operation, with the platforms generated by [generatePlatform] during
    it ([None] when an update's loop did not finish within its fuel). *)
Definition op_step (o : Op) (m : Manager) : option (Manager * list Platform) :=
  match o with
  | OpGenerate r => let '(m', p) := generatePlatform m r in Some (m', [p])
  | OpUpdate fuel dt cy rs fills => update_gen fuel dt cy rs fills m
  | OpPush p => Some (push_platform p m, [])
  | OpDifficulty d => Some (manager_difficulty d m, [])
  end.

Fixpoint run (ops : list Op) (m : Manager) : option (Manager * list Platform) :=
  match ops with
  | [] => Some (m, [])
  | o :: ops' =>
      match op_step o m with
      | Some (m1, g1) =>
          match run ops' m1 with
          | Some (m2, g2) => Some (m2, g1 ++ g2)
          | None => None
          end
      | None => None
      end
  end.

(** The gap draws of a trace are uniform draws in [0, 1]. *)
Definition op_gap_draws_ok (o : Op) : Prop :=
  match o with
  | OpGenerate r => unit_draw (r_gap r)
  | OpUpdate _ _ _ rs _ => forall k, unit_draw (r_gap (rs k))
  | _ => True
  end.

(** Consecutive generated platforms, starting from frontier [h]: every
    vertical gap lies in [[lo, hi]]. *)
Fixpoint gaps_ok (lo hi h : Q) (ps : list Platform) : Prop :=
  match ps with
  | [] => True
  | p :: ps' => lo <= h - y p <= hi /\ gaps_ok lo hi (y p) ps'
  end.

(** The frontier after generating [ps] from [h]: the [y] of the last one. *)
Definition frontier (h : Q) (ps : list Platform) : Q :=
  fold_left (fun _ p => y p) ps h.

(** ** The player *)

Module Player.

(** Modelled from the spec: class [Player] is not in src.  Section 3 lists
    its state: position, velocity, dimensions, alive flag, and the physics
    constants [gravity] and [jumpForce] that difficulty scaling mutates. *)
Record Player := mkPlayer {
  x : Q; y : Q; width : Q; height : Q;
  velocityX : Q; velocityY : Q;
  gravity : Q; jumpForce : Q;
  isAlive : bool
}.

(** Modelled from the spec: [new Player(x, y, width, height)] places the
    player at rest at the given position and size; [gravity] and [jumpForce]
    start at the values [Game.increaseDifficulty] gives level 1. *)
Definition create (x0 y0 w h : Q) : Player :=
  {| x := x0; y := y0; width := w; height := h; velocityX := 0; velocityY := 0;
     gravity := 1#2; jumpForce := -15; isAlive := true |}.

Definition set_physics (g jf : Q) (p : Player) : Player :=
  {| x := x p; y := y p; width := width p; height := height p;
     velocityX := velocityX p; velocityY := velocityY p;
     gravity := g; jumpForce := jf; isAlive := isAlive p |}.

Definition kill (p : Player) : Player :=
  {| x := x p; y := y p; width := width p; height := height p;
     velocityX := velocityX p; velocityY := velocityY p;
     gravity := gravity p; jumpForce := jumpForce p; isAlive := false |}.

End Player.

(** ** Collision scan ([PlatformManager.checkCollisions]) *)

Section Collisions.

(** [player.onPlatformCollision(platform)], which lives in the [Player] class
    (not in src): it may update the player and the platform object and
    returns whether it resolved a collision. *)
Variable onPlatformCollision :
  Player.Player -> Platform -> Player.Player * Platform * bool.

(** The tests of one loop iteration: active, within 20 px of the player's
    bottom edge (computed once, before the loop), and AABB overlap. *)
Definition collision_test (playerBottom : Q) (pl : Player.Player) (p : Platform)
    : bool :=
  active p
  && qle (Qabs (y p - playerBottom)) 20
  && (qlt (Player.x pl) (x p + width p)
      && qlt (x p) (Player.x pl + Player.width pl))
  && (qle (y p) playerBottom && qlt (Player.y pl) (y p + height p)).

(** The [for ... of] loop from list index [i] on.  Besides the player and the
    (possibly mutated) platform list and the returned flag, it reports the
    handler calls it made: the list index of the platform and the handler's
    result. *)
Fixpoint scan (playerBottom : Q) (pl : Player.Player) (ps : list Platform)
    (i : nat) : Player.Player * list Platform * bool * list (nat * bool) :=
  match ps with
  | [] => (pl, [], false, [])
  | p :: ps' =>
      if collision_test playerBottom pl p then
        let '(pl1, p1, result) := onPlatformCollision pl p in
        if result then (pl1, p1 :: ps', true, [(i, true)])
        else
          let '(pl2, ps2, c, calls) := scan playerBottom pl1 ps' (S i) in
          (pl2, p1 :: ps2, c, (i, false) :: calls)
      else
        let '(pl2, ps2, c, calls) := scan playerBottom pl ps' (S i) in
        (pl2, p :: ps2, c, calls)
  end.

Definition checkCollisions (pl : Player.Player) (ps : list Platform)
    : Player.Player * list Platform * bool * list (nat * bool) :=
  if qle (Player.velocityY pl) 0 then (pl, ps, false, [])
  else scan (Player.y pl + Player.height pl) pl ps 0.

End Collisions.

(** The first index of [ps] whose platform satisfies [f]. *)
Fixpoint first_index (f : Platform -> bool) (ps : list Platform) (i : nat)
    : option nat :=
  match ps with
  | [] => None
  | p :: ps' => if f p then Some i else first_index f ps' (S i)
  end.

(** ** The camera and the game state *)

Module Camera.
Record Camera := mkCamera { y : Q; targetY : Q; smoothing : Q }.
End Camera.

(** The fields of [EnemyManager] that [increaseDifficulty] writes. *)
Record EnemyManager := mkEnemyManager { spawnChance : Q; maxSpeed : Q }.

(** The simulation part of a [Game] object. *)
Record Game := mkGame {
  canvas_width : Q;
  canvas_height : Q;
  isRunning : bool;
  isGameOver : bool;
  score : Z;
  difficulty : Z;
  lastDifficultyIncrease : Z;
  camera : Camera.Camera;
  player : Player.Player;
  platformManager : Manager;
  enemyManager : EnemyManager;
  milestoneTimers : list (Z * Z)
}.

(** Field assignments on a [Game]. *)
Definition set_score (s : Z) (g : Game) : Game :=
  {| canvas_width := canvas_width g; canvas_height := canvas_height g;
     isRunning := isRunning g; isGameOver := isGameOver g; score := s;
     difficulty := difficulty g;
     lastDifficultyIncrease := lastDifficultyIncrease g; camera := camera g;
     player := player g; platformManager := platformManager g;
     enemyManager := enemyManager g; milestoneTimers := milestoneTimers g |}.

Definition set_difficulty (d last : Z) (g : Game) : Game :=
  {| canvas_width := canvas_width g; canvas_height := canvas_height g;
     isRunning := isRunning g; isGameOver := isGameOver g; score := score g;
     difficulty := d; lastDifficultyIncrease := last; camera := camera g;
     player := player g; platformManager := platformManager g;
     enemyManager := enemyManager g; milestoneTimers := milestoneTimers g |}.

Definition set_camera (c : Camera.Camera) (g : Game) : Game :=
  {| canvas_width := canvas_width g; canvas_height := canvas_height g;
     isRunning := isRunning g; isGameOver := isGameOver g; score := score g;
     difficulty := difficulty g;
     lastDifficultyIncrease := lastDifficultyIncrease g; camera := c;
     player := player g; platformManager := platformManager g;
     enemyManager := enemyManager g; milestoneTimers := milestoneTimers g |}.

Definition set_flags (running gameOver : bool) (g : Game) : Game :=
  {| canvas_width := canvas_width g; canvas_height := canvas_height g;
     isRunning := running; isGameOver := gameOver; score := score g;
     difficulty := difficulty g;
     lastDifficultyIncrease := lastDifficultyIncrease g; camera := camera g;
     player := player g; platformManager := platformManager g;
     enemyManager := enemyManager g; milestoneTimers := milestoneTimers g |}.

Definition set_entities (pl : Player.Player) (pm : Manager) (em : EnemyManager)
    (g : Game) : Game :=
  {| canvas_width := canvas_width g; canvas_height := canvas_height g;
     isRunning := isRunning g; isGameOver := isGameOver g; score := score g;
     difficulty := difficulty g;
     lastDifficultyIncrease := lastDifficultyIncrease g; camera := camera g;
     player := pl; platformManager := pm; enemyManager := em;
     milestoneTimers := milestoneTimers g |}.

Definition set_milestoneTimers (t : list (Z * Z)) (g : Game) : Game :=
  {| canvas_width := canvas_width g; canvas_height := canvas_height g;
     isRunning := isRunning g; isGameOver := isGameOver g; score := score g;
     difficulty := difficulty g;
     lastDifficultyIncrease := lastDifficultyIncrease g; camera := camera g;
     player := player g; platformManager := platformManager g;
     enemyManager := enemyManager g; milestoneTimers := t |}.

(** [obj[k] = v] on the [milestoneTimers] object. *)
Fixpoint assoc_set (k v : Z) (l : list (Z * Z)) : list (Z * Z) :=
  match l with
  | [] => [(k, v)]
  | (k', v') :: l' => if Z.eqb k k' then (k, v) :: l' else (k', v') :: assoc_set k v l'
  end.

(** [Game.increaseDifficulty()]. *)
Definition increaseDifficulty (g : Game) : Game :=
  let d := (difficulty g + 1)%Z in
  let g := set_difficulty d (score g) g in
  let dq := inject_Z d in
  let pl := Player.set_physics (Qmin ((1#2) + (dq - 1) * (5#100)) (8#10))
                               (Qmax (-15 - (dq - 1)) (-20)) (player g) in
  let pm := manager_difficulty d (platformManager g) in
  let em := {| spawnChance := Qmin ((2#10) + (dq - 1) * (5#100)) (5#10);
               maxSpeed := Qmin (2 + (dq - 1) * (1#2)) 5 |} in
  let g := set_entities pl pm em g in
  set_camera {| Camera.y := Camera.y (camera g);
                Camera.targetY := Camera.targetY (camera g);
                Camera.smoothing := Qmin ((1#10) + (dq - 1) * (2#100)) (2#10) |} g.

(** [Game.showThousandMilestone(milestone)] (the sound is left out). *)
Definition showThousandMilestone (milestone : Z) (g : Game) : Game :=
  set_milestoneTimers (assoc_set milestone 120 (milestoneTimers g)) g.

(** [Game.updateScore(newScore)]; the 100-point sound and the DOM updates do
    not touch the game state and are left out. *)
Definition updateScore (newScore : Z) (g : Game) : Game :=
  if (score g <? newScore)%Z then
    let previousThousand := (score g / 1000)%Z in
    let newThousand := (newScore / 1000)%Z in
    let g := if (previousThousand <? newThousand)%Z
             then showThousandMilestone (newThousand * 1000)
                    (increaseDifficulty g)
             else g in
    set_score newScore g
  else g.

(** The easing constant of [Game.updateCamera]. *)
Definition camera_easing (velocityY : Q) : Q :=
  if qlt 0 velocityY then 5#100 else 1#10.

Section Camera_update.

(** [Utils.ease(current, target, factor)]; [Utils] is not in src and the spec
    does not define it, so it is left as a parameter. *)
Variable ease : Q -> Q -> Q -> Q.

(** [Game.updateCamera(deltaTime)]. *)
Definition updateCamera (g : Game) : Game :=
  let pl := player g in
  let cam := camera g in
  let H := canvas_height g in
  let screenY := Player.y pl - Camera.y cam in
  let target := if qlt screenY (H * (67#100)) then Player.y pl - H * (1#2)
                else Camera.targetY cam in
  let target := if qlt (H * (8#10)) screenY && qlt (Camera.y cam) target
                then Camera.y cam else target in
  let easing := camera_easing (Player.velocityY pl) in
  let g := set_camera {| Camera.y := ease (Camera.y cam) target easing;
                         Camera.targetY := target;
                         Camera.smoothing := Camera.smoothing cam |} g in
  if qlt (H + 50) screenY
  then set_entities (Player.kill pl) (platformManager g) (enemyManager g) g
  else g.

End Camera_update.

Section Restart.

(** [new EnemyManager(width, height)]: the class is not in src and no claim
    reads its initial state, so it is a parameter. *)
Variable newEnemyManager : Q -> Q -> EnemyManager.

(** The random draws of one [initEntities]: those of the [PlatformManager]
    constructor and the [Math.random()] of the starting platform. *)
Record EntityRand := mkEntityRand { e_manager : InitRand; e_start_dir : Q }.

(** [Game.initEntities()] (the power-up manager holds no state the claims
    read and is left out). *)
Definition initEntities (r : EntityRand) (g : Game) : Game :=
  let W := canvas_width g in
  let H := canvas_height g in
  let pl := Player.create (W / 2 - 30) (H - 150) 60 100 in
  let pm := newPlatformManager W H 15 (e_manager r) in
  let em := newEnemyManager W H in
  let ph := if Qeq_bool (platformHeight pm) 0 then 20 else platformHeight pm in
  let startingPlatform :=
    newPlatform (W / 2 - 40) (H - 40) 80 ph normal (e_start_dir r) in
  set_entities pl (push_platform startingPlatform pm) em g.

(** [Game.restart()] up to its final [this.gameLoop()] call, which starts
    the next frame. *)
Definition restart (r : EntityRand) (g : Game) : Game :=
  let g := set_score 0 g in
  let g := updateScore 0 g in
  let g := set_camera {| Camera.y := 0; Camera.targetY := 0;
                         Camera.smoothing := Camera.smoothing (camera g) |} g in
  let g := set_flags (isRunning g) false g in
  let g := set_difficulty 1 0 g in
  let g := initEntities r g in
  let g := set_milestoneTimers [] g in
  set_flags true (isGameOver g) g.

End Restart.

(** ** Emergency recovery ([Game.recoverPlayerIfNeeded]) with non-finite
    numbers *)

Module Recovery.

(** JavaScript numbers with their non-finite values; finite values are
    idealised as rationals (no rounding, no overflow). *)
Inductive num := Fin (q : Q) | NaN | PInf | NInf.

Definition neg (a : num) : num :=
  match a with
  | Fin q => Fin (- q) | NaN => NaN | PInf => NInf | NInf => PInf
  end.

Definition add (a b : num) : num :=
  match a, b with
  | NaN, _ | _, NaN => NaN
  | PInf, NInf | NInf, PInf => NaN
  | PInf, _ | _, PInf => PInf
  | NInf, _ | _, NInf => NInf
  | Fin p, Fin q => Fin (p + q)
  end.

Definition sub (a b : num) : num := add a (neg b).

(** [a < b]: false whenever NaN is involved. *)
Definition lt (a b : num) : bool :=
  match a, b with
  | NaN, _ | _, NaN => false
  | Fin p, Fin q => qlt p q
  | NInf, NInf | PInf, _ => false
  | NInf, _ => true
  | Fin _, PInf => true
  | Fin _, NInf => false
  end.

Definition isNaN (a : num) : bool :=
  match a with NaN => true | _ => false end.

(** The state [recoverPlayerIfNeeded] reads and writes: the player's
    position, velocity, width, [jumpForce] and alive flag, the camera's [y]
    and the canvas size. *)
Record State := mkState {
  px : num; py : num; pvx : num; pvy : num;
  pwidth : Q; jumpForce : Q; isAlive : bool;
  cameraY : num;
  cw : Q; ch : Q
}.

Definition set_player (x0 y0 vx vy : num) (alive : bool) (s : State) : State :=
  {| px := x0; py := y0; pvx := vx; pvy := vy; pwidth := pwidth s;
     jumpForce := jumpForce s; isAlive := alive; cameraY := cameraY s;
     cw := cw s; ch := ch s |}.

(** [Game.recoverPlayerIfNeeded()]. *)
Definition recoverPlayerIfNeeded (s : State) : State :=
  let w := pwidth s in
  let s := if lt (px s) (Fin (- w * 2)) || lt (Fin (cw s + w * 2)) (px s)
           then set_player (Fin (cw s / 2 - w / 2)) (py s) (pvx s) (pvy s)
                           (isAlive s) s
           else s in
  let screenY := sub (py s) (cameraY s) in
  if lt screenY (Fin (- ch s)) || lt (Fin (ch s * 2)) screenY
  then set_player (px s) (py s) (pvx s) (pvy s) false s
  else if isNaN (px s) || isNaN (py s) || isNaN (pvx s) || isNaN (pvy s)
  then set_player (Fin (cw s / 2 - w / 2))
                  (add (cameraY s) (Fin (ch s * (7#10))))
                  (Fin 0) (Fin (jumpForce s * (1#2))) (isAlive s) s
  else s.

End Recovery.

(** For a list of handler calls: every call but the last reported no
    collision, i.e. the scan went on only after unresolved calls. *)
Fixpoint resolved_only_last (calls : list (nat * bool)) : bool :=
  match calls with
  | [] | [_] => true
  | (_, b) :: rest => negb b && resolved_only_last rest
  end.

Definition count_resolved (calls : list (nat * bool)) : nat :=
  length (filter snd calls).

(** A platform that a player can land on from where it stands: active,
    spanning the player's horizontal extent, and at most 20 px (the
    collision tolerance) below the player's bottom edge. *)
Definition directly_under (pl : Player.Player) (p : Platform) : Prop :=
  (active p = true) /\
  (x p <= Player.x pl) /\ (Player.x pl + Player.width pl <= x p + width p) /\
  (Player.y pl + Player.height pl <= y p <= Player.y pl + Player.height pl + 20).

(** The vertical off-screen test and the reset of
    [recoverPlayerIfNeeded]. *)
Definition offscreen (s : Recovery.State) : bool :=
  let screenY := Recovery.sub (Recovery.py s) (Recovery.cameraY s) in
  Recovery.lt screenY (Recovery.Fin (- Recovery.ch s))
  || Recovery.lt (Recovery.Fin (Recovery.ch s * 2)) screenY.

Definition reset_player (s : Recovery.State) : Recovery.State :=
  Recovery.set_player (Recovery.Fin (Recovery.cw s / 2 - Recovery.pwidth s / 2))
    (Recovery.add (Recovery.cameraY s) (Recovery.Fin (Recovery.ch s * (7#10))))
    (Recovery.Fin 0) (Recovery.Fin (Recovery.jumpForce s * (1#2)))
    (Recovery.isAlive s) s.

Definition some_nan (s : Recovery.State) : bool :=
  Recovery.isNaN (Recovery.px s) || Recovery.isNaN (Recovery.py s)
  || Recovery.isNaN (Recovery.pvx s) || Recovery.isNaN (Recovery.pvy s).

Definition finite (a : Recovery.num) : bool :=
  match a with Recovery.Fin _ => true | _ => false end.

Definition some_non_finite (s : Recovery.State) : bool :=
  negb (finite (Recovery.px s) && finite (Recovery.py s)
        && finite (Recovery.pvx s) && finite (Recovery.pvy s)).

(** ** Further functions *)

(** [n] successive frames of [Platform.update] with the same time step. *)
Fixpoint updates (n : nat) (deltaTime canvasWidth : Q) (p : Platform) : Platform :=
  match n with
  | O => p
  | S n' => platform_update deltaTime canvasWidth (updates n' deltaTime canvasWidth p)
  end.

(** Every platform of a list is active. *)
Definition all_active (ps : list Platform) : Prop :=
  Forall (fun p => active p = true) ps.

(** [highestPlatformY] is at or above (smaller [y] than) every platform. *)
Definition frontier_topmost (m : Manager) : Prop :=
  Forall (fun p => highestPlatformY m <= y p) (platforms m).

(** *** Resizing ([Game.resizeCanvas], [Game.adjustEntitiesForResize]) *)

(** [this.platformManager.canvasWidth = w; ...canvasHeight = h]. *)
Definition manager_set_canvas (w h : Q) (m : Manager) : Manager :=
  {| canvasWidth := w; canvasHeight := h;
     platforms := platforms m; minPlatformWidth := minPlatformWidth m;
     maxPlatformWidth := maxPlatformWidth m; platformHeight := platformHeight m;
     minGapY := minGapY m; maxGapY := maxGapY m;
     specialPlatformChance := specialPlatformChance m;
     highestPlatformY := highestPlatformY m;
     platformDensity := platformDensity m; density := density m;
     minWidth := minWidth m; maxWidth := maxWidth m |}.

(** [player.x = v] and [player.y = v]. *)
Definition player_set_x (v : Q) (p : Player.Player) : Player.Player :=
  {| Player.x := v; Player.y := Player.y p; Player.width := Player.width p;
     Player.height := Player.height p; Player.velocityX := Player.velocityX p;
     Player.velocityY := Player.velocityY p; Player.gravity := Player.gravity p;
     Player.jumpForce := Player.jumpForce p; Player.isAlive := Player.isAlive p |}.

Definition player_set_y (v : Q) (p : Player.Player) : Player.Player :=
  {| Player.x := Player.x p; Player.y := v; Player.width := Player.width p;
     Player.height := Player.height p; Player.velocityX := Player.velocityX p;
     Player.velocityY := Player.velocityY p; Player.gravity := Player.gravity p;
     Player.jumpForce := Player.jumpForce p; Player.isAlive := Player.isAlive p |}.

(** [this.canvas.width = w; this.canvas.height = h]. *)
Definition set_canvas_size (w h : Q) (g : Game) : Game :=
  {| canvas_width := w; canvas_height := h;
     isRunning := isRunning g; isGameOver := isGameOver g; score := score g;
     difficulty := difficulty g;
     lastDifficultyIncrease := lastDifficultyIncrease g; camera := camera g;
     player := player g; platformManager := platformManager g;
     enemyManager := enemyManager g; milestoneTimers := milestoneTimers g |}.

(** [Game.adjustEntitiesForResize(isPortrait, isMobile)].  The canvas sizes
    it copies into the enemy and power-up managers are not part of the
    modelled state. *)
Definition adjustEntitiesForResize (isPortrait isMobile : bool) (g : Game) : Game :=
  let W := canvas_width g in
  let H := canvas_height g in
  let pm := manager_set_canvas W H (platformManager g) in
  let pl := player g in
  let pl := player_set_x (Qmin (W - Player.width pl)
                               (Qmax 0 (W / 2 - Player.width pl / 2))) pl in
  let screenY := Player.y pl - Camera.y (camera g) in
  let pl := if qlt screenY 0 || qlt H screenY
            then player_set_y (Camera.y (camera g) + H * (7#10)) pl else pl in
  let g := set_entities pl pm (enemyManager g) g in
  if isMobile && isPortrait then
    let cy := Camera.y (camera g) - H * (1#10) in
    set_camera {| Camera.y := cy; Camera.targetY := cy;
                  Camera.smoothing := Camera.smoothing (camera g) |} g
  else g.

(** The "force camera position update" block of [resizeCanvas]. *)
Definition force_camera (g : Game) : Game :=
  let cy := Player.y (player g) - canvas_height g * (7#10) in
  set_camera {| Camera.y := cy; Camera.targetY := cy;
                Camera.smoothing := Camera.smoothing (camera g) |} g.

(** [Game.resizeCanvas()] for a window of [windowWidth] x [windowHeight]
    (logging and the re-render are left out). *)
Definition resizeCanvas (windowWidth windowHeight : Q) (g : Game) : Game :=
  let g := set_canvas_size windowWidth windowHeight g in
  let isPortrait := qlt windowWidth windowHeight in
  let isMobile := qle windowWidth 430 in
  let g := adjustEntitiesForResize isPortrait isMobile g in
  force_camera g.

(** *** The leaderboard ([leaderboard.js]) *)

Section Leaderboard.

(** A user object of the API's [users] array; only its [highScore] is read
    by the ranking. *)
Variable User : Type.
Variable highScore : User -> Z.

(** [users.sort((a, b) => b.highScore - a.highScore)].  [Array.prototype.sort]
    is stable, and a stable sort has a unique result, which this insertion
    sort computes: each user goes after those already placed whose high
    score is at least its own. *)
Fixpoint insert_user (u : User) (l : list User) : list User :=
  match l with
  | [] => [u]
  | v :: l' => if (highScore v <? highScore u)%Z then u :: v :: l'
               else v :: insert_user u l'
  end.

Definition sort_users (l : list User) : list User :=
  fold_left (fun acc u => insert_user u acc) l [].

(** The data part of [loadLeaderboardData]: [data.users || []], sorted, and
    the top ten [sortedUsers.slice(0, 10)] handed to [displayLeaderboardData];
    the result is [(topUsers, sortedUsers)]. *)
Definition loadLeaderboard (users : option (list User)) : list User * list User :=
  let users := match users with Some l => l | None => [] end in
  let sortedUsers := sort_users users in
  (firstn 10 sortedUsers, sortedUsers).

End Leaderboard.

(** [formatNumber(num)]: [num.toString().replace(/\B(?=(\d{3})+(?!\d))/g, ",")]
    for an integer [num].  Between two digits [\B] always holds, and the
    lookahead holds exactly when the digits from there to the end of the
    digit run are a positive multiple of three in number; before the first
    digit there is either the start of the string (then the lookahead fails,
    the next digits being followed by more) or a minus sign (then [\B] fails,
    the minus sign not being a word character). *)
Fixpoint uint_chars (u : Decimal.uint) : list Ascii.ascii :=
  match u with
  | Decimal.Nil => []
  | Decimal.D0 u => "0"%char :: uint_chars u
  | Decimal.D1 u => "1"%char :: uint_chars u
  | Decimal.D2 u => "2"%char :: uint_chars u
  | Decimal.D3 u => "3"%char :: uint_chars u
  | Decimal.D4 u => "4"%char :: uint_chars u
  | Decimal.D5 u => "5"%char :: uint_chars u
  | Decimal.D6 u => "6"%char :: uint_chars u
  | Decimal.D7 u => "7"%char :: uint_chars u
  | Decimal.D8 u => "8"%char :: uint_chars u
  | Decimal.D9 u => "9"%char :: uint_chars u
  end.

(** [num.toString()] for an integer. *)
Definition toString (n : Z) : list Ascii.ascii :=
  match n with
  | Zneg p => "-"%char :: uint_chars (Pos.to_uint p)
  | _ => uint_chars (N.to_uint (Z.to_N n))
  end.

(** The replacement on a run of digits: a comma after each digit that is
    followed by a positive multiple of three digits. *)
Fixpoint group_digits (ds : list Ascii.ascii) : list Ascii.ascii :=
  match ds with
  | [] => []
  | d :: rest =>
      if negb (Nat.eqb (length rest) 0) && Nat.eqb (Nat.modulo (length rest) 3) 0
      then d :: ","%char :: group_digits rest
      else d :: group_digits rest
  end.

Definition formatNumber (n : Z) : list Ascii.ascii :=
  match n with
  | Zneg p => "-"%char :: group_digits (uint_chars (Pos.to_uint p))
  | _ => group_digits (uint_chars (N.to_uint (Z.to_N n)))
  end.

(** The string with its commas removed. *)
Definition strip_commas (s : list Ascii.ascii) : list Ascii.ascii :=
  filter (fun c => negb (Ascii.eqb c ","%char)) s.


(** *** Background clouds ([Game.generateClouds], [Game.updateBackground]) *)

Module Cloud.
Record Cloud := mkCloud { x : Q; y : Q; width : Q; height : Q; speed : Q }.
End Cloud.

(** The draws of one cloud of [generateClouds]: the two [Math.random()] for
    its position and the three [randomBetween] for its size and speed. *)
Record GenCloudRand := mkGenCloudRand {
  g_x : Q; g_y : Q; g_width : Q; g_height : Q; g_speed : Q }.

(** The four [randomBetween] draws of the cloud [updateBackground] may add. *)
Record CloudRand := mkCloudRand {
  c_x : Q; c_width : Q; c_height : Q; c_speed : Q }.

(** [generateClouds()]: ten clouds pushed onto [this.background.clouds]. *)
Definition generateClouds (W H : Q) (draws : nat -> GenCloudRand)
    (clouds : list Cloud.Cloud) : list Cloud.Cloud :=
  clouds ++
  map (fun i =>
         let r := draws i in
         {| Cloud.x := g_x r * W; Cloud.y := g_y r * H * 2 - H;
            Cloud.width := randomBetween (g_width r) 50 150;
            Cloud.height := randomBetween (g_height r) 30 60;
            Cloud.speed := randomBetween (g_speed r) (3#100) (1#10) |})
      (seq 0 10).

(** One iteration of the [for ... of] loop of [updateBackground]. *)
Definition cloud_move (W : Q) (c : Cloud.Cloud) : Cloud.Cloud :=
  let x' := Cloud.x c + Cloud.speed c * (1#10) in
  {| Cloud.x := if qlt W x' then - Cloud.width c else x';
     Cloud.y := Cloud.y c; Cloud.width := Cloud.width c;
     Cloud.height := Cloud.height c; Cloud.speed := Cloud.speed c |}.

(** [updateBackground(deltaTime)] on a [W] x [H] canvas with the camera at
    [cameraY]. *)
Definition updateBackground (W H cameraY : Q) (r : CloudRand)
    (clouds : list Cloud.Cloud) : list Cloud.Cloud :=
  let clouds := map (cloud_move W) clouds in
  if Nat.ltb (length clouds) 10 then
    clouds ++ [{| Cloud.x := randomBetween (c_x r) (-50) W;
                  Cloud.y := - H - cameraY;
                  Cloud.width := randomBetween (c_width r) 50 150;
                  Cloud.height := randomBetween (c_height r) 30 60;
                  Cloud.speed := randomBetween (c_speed r) (3#100) (1#10) |}]
  else clouds.

(** [n] frames of [updateBackground], frame [k] with camera [cameraYs k] and
    draws [rs k]. *)
Fixpoint background_frames (n : nat) (W H : Q) (cameraYs : nat -> Q)
    (rs : nat -> CloudRand) (clouds : list Cloud.Cloud) : list Cloud.Cloud :=
  match n with
  | O => clouds
  | S n' => updateBackground W H (cameraYs n') (rs n')
              (background_frames n' W H cameraYs rs clouds)
  end.

(** Every cloud has a non-negative width and speed and lies between one
    width left of the canvas and its right edge. *)
Definition clouds_in_band (W : Q) (clouds : list Cloud.Cloud) : Prop :=
  Forall (fun c => 0 <= Cloud.width c /\ 0 <= Cloud.speed c /\
                   - Cloud.width c <= Cloud.x c <= W) clouds.

(** ** Sample inputs *)

(** Draws that are all one half, and a 400x600 canvas. *)
Definition half_gen : GenRand := mkGenRand (1#2) (1#2) (1#2) (1#2) (1#2) (1#2) (1#2) (1#2).
Definition half_fill : FillRand := mkFillRand (1#2) (1#2) (1#2) (1#2).
Definition half_init : InitRand := mkInitRand (1#2) (fun _ => (1#2, 1#2)) (fun _ => half_gen).

Definition sample_manager : Manager := newPlatformManager 400 600 15 half_init.

Definition sample_ops : list Op :=
  [OpGenerate half_gen;
   OpPush (newPlatform 0 300 80 20 normal (1#2));
   OpUpdate 20 16 (-500) (fun _ => half_gen) (half_fill, half_fill);
   OpDifficulty 2;
   OpGenerate half_gen].

(** A manager high up (score about 2000), whose last platform is normal,
    and draws that pick a late-game [disappearing] platform. *)
Definition late_manager : Manager :=
  set_highestPlatformY (-19910)
    (set_platforms [newPlatform 100 (-19910) 100 20 normal (1#2)]
       (manager_fields 400 600)).

Definition disappearing_gen : GenRand :=
  mkGenRand (1#2) (1#2) (1#2) 0 (9#10) (1#2) (1#2) (1#2).

(** Generate, then two frames in which the camera has not climbed enough to
    generate but the density check adds two fillers each, then generate. *)
Definition filler_ops : list Op :=
  [OpGenerate disappearing_gen;
   OpUpdate 5 16 (-18800) (fun _ => half_gen) (half_fill, half_fill);
   OpUpdate 5 16 (-18800) (fun _ => half_gen) (half_fill, half_fill);
   OpGenerate disappearing_gen].

(** No two consecutive platforms of a list are both [disappearing]. *)
Fixpoint no_two_disappearing (ps : list Platform) : bool :=
  match ps with
  | p :: ((q :: _) as ps') =>
      negb (ptype_eqb (type p) disappearing && ptype_eqb (type q) disappearing)
      && no_two_disappearing ps'
  | _ => true
  end.

(** A game at the start of a run on a 400x600 canvas. *)
Definition sample_game : Game :=
  {| canvas_width := 400; canvas_height := 600; isRunning := true;
     isGameOver := false; score := 0; difficulty := 1;
     lastDifficultyIncrease := 0;
     camera := {| Camera.y := 0; Camera.targetY := 0; Camera.smoothing := 1#10 |};
     player := Player.create 170 450 60 100;
     platformManager := sample_manager;
     enemyManager := {| spawnChance := 2#10; maxSpeed := 2 |};
     milestoneTimers := [] |}.

(** A handler that always resolves: it gives the player the jump impulse
    and reports a collision.  A falling player whose bottom edge is
    at 500, a platform out of reach, and two platforms it overlaps: the one
    at 485 comes first in the list, the nearer one at 498 second. *)
Definition jump_handler (pl : Player.Player) (p : Platform)
    : Player.Player * Platform * bool :=
  ({| Player.x := Player.x pl; Player.y := Player.y pl;
      Player.width := Player.width pl; Player.height := Player.height pl;
      Player.velocityX := Player.velocityX pl;
      Player.velocityY := Player.jumpForce pl;
      Player.gravity := Player.gravity pl; Player.jumpForce := Player.jumpForce pl;
      Player.isAlive := Player.isAlive pl |}, p, true).

Definition falling_player : Player.Player :=
  {| Player.x := 100; Player.y := 400; Player.width := 60; Player.height := 100;
     Player.velocityX := 0; Player.velocityY := 3; Player.gravity := 1#2;
     Player.jumpForce := -15; Player.isAlive := true |}.

Definition two_platforms : list Platform :=
  [newPlatform 300 500 80 20 normal 0;
   newPlatform 90 485 80 20 normal 0;
   newPlatform 80 498 80 20 bouncy 0].

(** A player on screen with an infinite [y], and one with an infinite
    vertical velocity. *)
Definition infinite_y_state : Recovery.State :=
  Recovery.mkState (Recovery.Fin 170) Recovery.PInf (Recovery.Fin 0)
    (Recovery.Fin 3) 60 (-15) true (Recovery.Fin 0) 400 600.

Definition infinite_v_state : Recovery.State :=
  Recovery.mkState (Recovery.Fin 170) (Recovery.Fin 300) (Recovery.Fin 0)
    Recovery.PInf 60 (-15) true (Recovery.Fin 0) 400 600.

Definition nan_x_state : Recovery.State :=
  Recovery.mkState Recovery.NaN (Recovery.Fin 300) (Recovery.Fin 0)
    (Recovery.Fin 3) 60 (-15) true (Recovery.Fin 0) 400 600.

Definition infinite_x_state : Recovery.State :=
  Recovery.mkState Recovery.PInf (Recovery.Fin 300) (Recovery.Fin 0)
    (Recovery.Fin 3) 60 (-15) true (Recovery.Fin 0) 400 600.

(** Platforms of each special type at the middle of the canvas. *)
Definition sample_breakable : Platform := newPlatform 160 300 80 20 breakable (1#2).
Definition sample_disappearing : Platform := newPlatform 160 300 80 20 disappearing (1#2).
Definition sample_moving : Platform := newPlatform 160 300 80 20 moving (1#2).

(** A frontier 2950 px up, so that the next platform falls in the score
    300-310 window, and a list whose last three platforms include a
    [breakable] and a [disappearing] one. *)
Definition window_manager : Manager := set_highestPlatformY (-2950) sample_manager.
Definition mixed_manager : Manager :=
  set_platforms [sample_breakable; sample_disappearing; sample_moving] sample_manager.

(** The sample game with the player in the bottom fifth of the screen, and a
    linear [Utils.ease]. *)
Definition low_game : Game :=
  set_entities (player_set_y 500 (player sample_game))
    (platformManager sample_game) (enemyManager sample_game) sample_game.
Definition linear_ease (current target factor : Q) : Q :=
  current + (target - current) * factor.

(** * Proofs *)

(** ** Comparison and type-test helpers *)

Lemma qle_spec (a b : Q) : qle a b = true <-> a <= b.
Proof. unfold qle. apply Qle_bool_iff. Qed.

Lemma qlt_spec (a b : Q) : qlt a b = true <-> a < b.
Proof.
  unfold qlt. rewrite negb_true_iff. split.
  - intros H. apply Qnot_le_lt. intros H'. apply Qle_bool_iff in H'.
    congruence.
  - intros H. destruct (Qle_bool b a) eqn:E; [|reflexivity].
    apply Qle_bool_iff in E. exfalso. apply (Qlt_not_le a b); assumption.
Qed.

Lemma ptype_eqb_spec (a b : ptype) : ptype_eqb a b = true <-> a = b.
Proof. destruct a, b; simpl; split; congruence. Qed.

Lemma includes_spec (t : ptype) (ts : list ptype) :
  includes t ts = true <-> In t ts.
Proof.
  unfold includes. rewrite existsb_exists. split.
  - intros [u [Hin Hu]]. apply ptype_eqb_spec in Hu. subst. exact Hin.
  - intros Hin. exists t. split; [exact Hin|]. apply ptype_eqb_spec. reflexivity.
Qed.

(** ** C10: the frame condition of [Platform.update] *)

(** C10. [Platform.update] never changes [y], [width], [height] or [type];
    it changes [x] only for [moving] platforms; for [normal], [bouncy] and
    [moving] platforms it leaves [active] and [opacity] unchanged. *)
Theorem platform_update_frame (deltaTime canvasWidth : Q) (p : Platform) :
  let p' := platform_update deltaTime canvasWidth p in
  y p' = y p /\ width p' = width p /\ height p' = height p /\
  type p' = type p /\
  (type p <> moving -> x p' = x p) /\
  (type p = normal \/ type p = bouncy \/ type p = moving ->
   active p' = active p /\ opacity p' = opacity p).
Proof.
  destruct p as [x0 y0 w h t a o bp dir vx mvx dt at0]; simpl.
  unfold platform_update; simpl.
  destruct t; simpl;
    try (destruct (qlt 0 bp)); try (destruct (qlt 0 dt)); simpl;
    repeat split; intros; try reflexivity;
    repeat match goal with
           | H : _ \/ _ |- _ => destruct H
           end; try discriminate; try congruence.
Qed.

(** ** C1: vertical gaps between consecutively generated platforms *)

Lemma randomBetween_bounds (u lo hi : Q) :
  unit_draw u -> lo <= hi -> lo <= randomBetween u lo hi <= hi.
Proof.
  unfold unit_draw, randomBetween. intros [H0 H1] Hle.
  assert (0 <= u * (hi - lo)) by (apply Qmult_le_0_compat; lra).
  assert (u * (hi - lo) <= 1 * (hi - lo)) by
    (apply Qmult_le_compat_r; lra).
  lra.
Qed.

Lemma generatePlatform_facts (m : Manager) (r : GenRand) :
  let '(m', p) := generatePlatform m r in
  y p = highestPlatformY m - randomBetween (r_gap r) (minGapY m) (maxGapY m) /\
  highestPlatformY m' = y p /\
  minGapY m' = minGapY m /\ maxGapY m' = maxGapY m /\
  canvasHeight m' = canvasHeight m /\
  platforms m' = platforms m ++ [p].
Proof. unfold generatePlatform; simpl. repeat split. Qed.

Lemma frontier_cons (h : Q) (p : Platform) (ps : list Platform) :
  frontier h (p :: ps) = frontier (y p) ps.
Proof. reflexivity. Qed.

Lemma frontier_app (h : Q) (l1 l2 : list Platform) :
  frontier h (l1 ++ l2) = frontier (frontier h l1) l2.
Proof. unfold frontier. apply fold_left_app. Qed.

Lemma gaps_ok_app (lo hi h : Q) (l1 l2 : list Platform) :
  gaps_ok lo hi h l1 -> gaps_ok lo hi (frontier h l1) l2 ->
  gaps_ok lo hi h (l1 ++ l2).
Proof.
  revert h. induction l1 as [|p l1 IH]; intros h H1 H2; simpl in *.
  - exact H2.
  - destruct H1 as [Hp H1]. split; [exact Hp|]. apply IH; assumption.
Qed.

(** The generation loop keeps the chain and moves the frontier to the last
    generated platform. *)
Lemma gen_while_S (f : nat) (target : Q) (rs : nat -> GenRand) (k : nat)
    (m : Manager) :
  gen_while (S f) target rs k m =
  if qlt target (highestPlatformY m) then
    let '(m1, p) := generatePlatform m (rs k) in
    match gen_while f target rs (S k) m1 with
    | Some (m2, ps) => Some (m2, p :: ps)
    | None => None
    end
  else Some (m, []).
Proof. reflexivity. Qed.

Lemma gen_while_gaps (fuel : nat) (target : Q) (rs : nat -> GenRand) :
  forall k m m' gen,
  (forall j, unit_draw (r_gap (rs j))) -> minGapY m <= maxGapY m ->
  gen_while fuel target rs k m = Some (m', gen) ->
  gaps_ok (minGapY m) (maxGapY m) (highestPlatformY m) gen /\
  highestPlatformY m' = frontier (highestPlatformY m) gen /\
  minGapY m' = minGapY m /\ maxGapY m' = maxGapY m /\
  canvasHeight m' = canvasHeight m.
Proof.
  induction fuel as [|f IH]; intros k m m' gen Hd Hle Hrun.
  - simpl in Hrun. destruct (qlt target (highestPlatformY m)); [discriminate|].
    inversion Hrun; subst. simpl. repeat split.
  - rewrite gen_while_S in Hrun. destruct (qlt target (highestPlatformY m)).
    + pose proof (generatePlatform_facts m (rs k)) as Hg.
      destruct (generatePlatform m (rs k)) as [m1 p] eqn:Eg.
      destruct Hg as [Hy [Hh [Hmin [Hmax [Hch _]]]]].
      destruct (gen_while f target rs (S k) m1) as [[m2 ps]|] eqn:Er;
        [|discriminate].
      inversion Hrun; subst m' gen.
      destruct (IH (S k) m1 m2 ps Hd ltac:(rewrite Hmin, Hmax; exact Hle) Er)
        as [Hgaps [Hfr [Hmin2 [Hmax2 Hch2]]]].
      rewrite Hmin, Hmax, Hh in *.
      pose proof (randomBetween_bounds (r_gap (rs k)) _ _ (Hd k) Hle) as Hb.
      simpl. repeat split.
      * rewrite Hy. lra.
      * rewrite Hy. lra.
      * exact Hgaps.
      * exact Hfr.
      * exact Hmin2.
      * exact Hmax2.
      * rewrite Hch2. exact Hch.
    + inversion Hrun; subst. simpl. repeat split.
Qed.

Lemma update_gen_gaps (fuel : nat) (dt cy : Q) (rs : nat -> GenRand)
    (fills : FillRand * FillRand) (m m' : Manager) (gen : list Platform) :
  (forall j, unit_draw (r_gap (rs j))) -> minGapY m <= maxGapY m ->
  update_gen fuel dt cy rs fills m = Some (m', gen) ->
  gaps_ok (minGapY m) (maxGapY m) (highestPlatformY m) gen /\
  highestPlatformY m' = frontier (highestPlatformY m) gen /\
  minGapY m' = minGapY m /\ maxGapY m' = maxGapY m.
Proof.
  intros Hd Hle Hu. unfold update_gen in Hu.
  destruct (gen_while fuel (cy - canvasHeight (update_existing dt cy m) * 2) rs 0
              (update_existing dt cy m)) as [[m1 g1]|] eqn:Ew; [|discriminate].
  inversion Hu; subst m' gen.
  destruct (gen_while_gaps _ _ _ _ (update_existing dt cy m) _ _ Hd Hle Ew)
    as [Hg [Hf [Hmin [Hmax _]]]].
  simpl in Hg, Hf, Hmin, Hmax.
  unfold density_fill.
  destruct (qlt _ _); simpl; auto.
Qed.

Lemma op_step_gaps (o : Op) (m m' : Manager) (gen : list Platform) :
  op_gap_draws_ok o -> minGapY m <= maxGapY m ->
  op_step o m = Some (m', gen) ->
  gaps_ok (minGapY m) (maxGapY m) (highestPlatformY m) gen /\
  highestPlatformY m' = frontier (highestPlatformY m) gen /\
  minGapY m' = minGapY m /\ maxGapY m' = maxGapY m.
Proof.
  intros Hd Hle Hs. destruct o as [r|fuel dt cy rs fills|p|d]; simpl in Hs, Hd.
  - pose proof (generatePlatform_facts m r) as Hg.
    destruct (generatePlatform m r) as [m1 p] eqn:Eg.
    inversion Hs; subst. destruct Hg as [Hy [Hh [Hmin [Hmax _]]]].
    pose proof (randomBetween_bounds _ _ _ Hd Hle).
    simpl. repeat split; try assumption; lra.
  - eapply update_gen_gaps; eassumption.
  - inversion Hs; subst. simpl. repeat split.
  - inversion Hs; subst. simpl. repeat split.
Qed.

(** C1. Along any run of the platform manager (direct [generatePlatform]
    calls, frame updates with their generation loop and density fill, pushes
    by [Game], difficulty increases), every platform produced by
    [generatePlatform] lies between [minGapY] and [maxGapY] above the
    previous one (the first one above the initial frontier), these bounds
    are the ones in force throughout, and [highestPlatformY] is the [y] of
    the most recently generated platform.  Filler and pushed platforms are
    not in the generated list. *)
Theorem generated_gaps_within_bounds (ops : list Op) (m0 m' : Manager)
    (gen : list Platform) :
  Forall op_gap_draws_ok ops ->
  minGapY m0 <= maxGapY m0 ->
  run ops m0 = Some (m', gen) ->
  gaps_ok (minGapY m0) (maxGapY m0) (highestPlatformY m0) gen /\
  highestPlatformY m' = frontier (highestPlatformY m0) gen /\
  minGapY m' = minGapY m0 /\ maxGapY m' = maxGapY m0.
Proof.
  revert m0 m' gen. induction ops as [|o ops IH]; intros m0 m' gen Hd Hle Hr;
    simpl in Hr.
  - inversion Hr; subst. simpl. repeat split.
  - inversion Hd as [|? ? Ho Hds]; subst.
    destruct (op_step o m0) as [[m1 g1]|] eqn:E1; [|discriminate].
    destruct (run ops m1) as [[m2 g2]|] eqn:E2; [|discriminate].
    inversion Hr; subst m' gen.
    destruct (op_step_gaps o m0 m1 g1 Ho Hle E1) as [Hg1 [Hf1 [Hmin1 Hmax1]]].
    destruct (IH m1 m2 g2 Hds ltac:(rewrite Hmin1, Hmax1; exact Hle) E2)
      as [Hg2 [Hf2 [Hmin2 Hmax2]]].
    rewrite Hmin1, Hmax1, Hf1 in *.
    repeat split.
    + apply gaps_ok_app; assumption.
    + rewrite frontier_app. exact Hf2.
    + exact Hmin2.
    + exact Hmax2.
Qed.

Lemma generated_gaps_within_bounds_witness :
  exists m' gen, run sample_ops sample_manager = Some (m', gen) /\
  gaps_ok (minGapY sample_manager) (maxGapY sample_manager)
          (highestPlatformY sample_manager) gen /\
  highestPlatformY m' = frontier (highestPlatformY sample_manager) gen.
Proof.
  destruct (run sample_ops sample_manager) as [[m' gen]|] eqn:E.
  - exists m', gen. split; [reflexivity|].
    destruct (generated_gaps_within_bounds sample_ops sample_manager m' gen)
      as [H1 [H2 _]].
    + unfold sample_ops, half_gen, unit_draw.
      repeat constructor; simpl; try lra; intros; simpl; lra.
    + vm_compute. discriminate.
    + exact E.
    + split; assumption.
  - vm_compute in E. discriminate.
Defined.

(** ** C9: the generation loop of [update] terminates and reaches the
    look-ahead *)

Lemma gen_while_terminates (target : Q) (rs : nat -> GenRand) :
  (forall j, unit_draw (r_gap (rs j))) ->
  forall n k m,
  0 < minGapY m -> minGapY m <= maxGapY m ->
  highestPlatformY m - target <= inject_Z (Z.of_nat n) * minGapY m ->
  exists m' gen, gen_while n target rs k m = Some (m', gen) /\
                 highestPlatformY m' <= target.
Proof.
  intros Hd n. induction n as [|n IH]; intros k m Hpos Hle Hn.
  - exists m, []. simpl in Hn |- *.
    destruct (qlt target (highestPlatformY m)) eqn:E.
    + apply qlt_spec in E. exfalso.
      assert (inject_Z 0 * minGapY m == 0) by (unfold inject_Z; ring). lra.
    + split; [reflexivity|]. apply Qnot_lt_le. intros Hlt.
      apply qlt_spec in Hlt. congruence.
  - rewrite gen_while_S.
    destruct (qlt target (highestPlatformY m)) eqn:E.
    + pose proof (generatePlatform_facts m (rs k)) as Hg.
      destruct (generatePlatform m (rs k)) as [m1 p] eqn:Eg.
      destruct Hg as [Hy [Hh [Hmin [Hmax _]]]].
      pose proof (randomBetween_bounds _ _ _ (Hd k) Hle) as Hb.
      assert (Hs : inject_Z (Z.of_nat (S n)) * minGapY m ==
                   inject_Z (Z.of_nat n) * minGapY m + minGapY m).
      { rewrite Nat2Z.inj_succ, <- Z.add_1_r, inject_Z_plus. ring. }
      destruct (IH (S k) m1) as [m2 [gen [Hr Hfin]]].
      * rewrite Hmin. exact Hpos.
      * rewrite Hmin, Hmax. exact Hle.
      * rewrite Hmin, Hh, Hy. lra.
      * exists m2, (p :: gen). rewrite Hr. split; [reflexivity|exact Hfin].
    + exists m, []. split; [reflexivity|]. apply Qnot_lt_le. intros Hlt.
      apply qlt_spec in Hlt. congruence.
Qed.

Lemma enough_iterations (d g : Q) :
  0 < g -> exists n : nat, d <= inject_Z (Z.of_nat n) * g.
Proof.
  intros Hg. destruct (Qarchimedean (d / g)) as [p Hp].
  exists (Pos.to_nat p). rewrite positive_nat_Z.
  assert (Hdg : d == (d / g) * g) by (field; lra).
  assert (inject_Z (Z.pos p) = Z.pos p # 1) by reflexivity.
  rewrite Hdg. apply Qmult_le_compat_r; [|lra].
  rewrite H. apply Qlt_le_weak. exact Hp.
Qed.

(** C9. If [minGapY] is positive (and at most [maxGapY], so that every gap
    drawn is at least [minGapY]), the generation loop of
    [PlatformManager.update(deltaTime, cameraY)] terminates, and on return
    [highestPlatformY <= cameraY - 2 * canvasHeight]. *)
Theorem update_reaches_lookahead (deltaTime cameraY : Q) (rs : nat -> GenRand)
    (fills : FillRand * FillRand) (m : Manager) :
  0 < minGapY m -> minGapY m <= maxGapY m ->
  (forall j, unit_draw (r_gap (rs j))) ->
  exists fuel m', update fuel deltaTime cameraY rs fills m = Some m' /\
                  highestPlatformY m' <= cameraY - canvasHeight m * 2.
Proof.
  intros Hpos Hle Hd.
  set (m0 := update_existing deltaTime cameraY m).
  set (target := cameraY - canvasHeight m * 2).
  destruct (enough_iterations (highestPlatformY m0 - target) (minGapY m0) Hpos)
    as [n Hn].
  destruct (gen_while_terminates target rs Hd n 0 m0 Hpos Hle Hn)
    as [m1 [gen [Hr Hfin]]].
  exists n, (density_fill cameraY fills m1).
  unfold update, update_gen. fold m0. change (canvasHeight m0) with (canvasHeight m).
  fold target. rewrite Hr. split; [reflexivity|].
  unfold density_fill. destruct (qlt _ _); exact Hfin.
Qed.

Lemma update_reaches_lookahead_witness :
  exists fuel m',
    update fuel 16 (-500) (fun _ => half_gen) (half_fill, half_fill)
      sample_manager = Some m' /\
    highestPlatformY m' <= -500 - canvasHeight sample_manager * 2.
Proof.
  apply update_reaches_lookahead.
  - vm_compute. reflexivity.
  - vm_compute. discriminate.
  - intros j. unfold unit_draw, half_gen. simpl. lra.
Defined.

(** ** C6: no disappearing platform right after a recent disappearing one *)

Ltac destruct_ifs :=
  repeat match goal with
         | |- context [if ?b then _ else _] => destruct b eqn:?
         end.

(** C6 (as the code does it).  When one of the last three entries of
    [this.platforms] (generated, filler or pushed platforms alike) is
    [disappearing], [generatePlatform] does not produce a [disappearing]
    platform; a [disappearing] choice of the score bands falls back to
    [normal], or to [normal]/[bouncy] by the score 300-310 window rule. *)
Theorem generate_avoids_recent_disappearing (m : Manager) (r : GenRand) :
  includes disappearing (map type (slice_last 3 (platforms m))) = true ->
  let '(m', p) := generatePlatform m r in
  type p <> disappearing /\
  (special_type (Qabs (y p) / 10) (r_rand r) = disappearing ->
   type p = normal \/ type p = bouncy).
Proof.
  intros Hd. unfold generatePlatform, select_type. simpl. rewrite Hd.
  destruct (special_type _ (r_rand r)) eqn:Es; simpl;
    destruct_ifs; split; intros; try discriminate; auto.
Qed.

Lemma generate_avoids_recent_disappearing_witness :
  includes disappearing
    (map type (slice_last 3 (platforms (fst (generatePlatform late_manager
                                                disappearing_gen))))) = true /\
  type (snd (generatePlatform (fst (generatePlatform late_manager
                                       disappearing_gen)) disappearing_gen))
    <> disappearing.
Proof.
  split; [vm_compute; reflexivity|].
  pose proof (generate_avoids_recent_disappearing
                (fst (generatePlatform late_manager disappearing_gen))
                disappearing_gen ltac:(vm_compute; reflexivity)) as H.
  destruct (generatePlatform (fst (generatePlatform late_manager
                                     disappearing_gen)) disappearing_gen)
    as [m' p]. simpl. exact (proj1 H).
Defined.

(** C6 (as claimed) fails, against the code's own intent ("Don't create
    two disappearing platforms in a row"): after a generated [disappearing]
    platform at [y = -20000], two frames of density filling append four
    filler platforms lower down, the [disappearing] one leaves the last
    three entries, and the next generated platform, at [y = -20090] right
    above it, is [disappearing] again. *)
Lemma consecutive_disappearing_after_fillers :
  ~ (forall ops m m' gen, run ops m = Some (m', gen) ->
     no_two_disappearing gen = true).
Proof.
  intros H.
  destruct (run filler_ops late_manager) as [[m' gen]|] eqn:E.
  - pose proof (H _ _ _ _ E) as Hn.
    vm_compute in E. inversion E; subst. vm_compute in Hn. discriminate.
  - vm_compute in E. discriminate.
Qed.

(** ** C2 and C3: score and difficulty *)

Lemma increaseDifficulty_score (g : Game) :
  score (increaseDifficulty g) = score g /\
  difficulty (increaseDifficulty g) = (difficulty g + 1)%Z.
Proof. split; reflexivity. Qed.

(** C2. [updateScore(newScore)] stores the larger of the old score and
    [newScore]: the score never decreases, and a smaller [newScore] leaves it
    unchanged. *)
Theorem updateScore_monotone (newScore : Z) (g : Game) :
  score (updateScore newScore g) = Z.max (score g) newScore /\
  (score g <= score (updateScore newScore g))%Z.
Proof.
  unfold updateScore.
  destruct (score g <? newScore)%Z eqn:E.
  - apply Z.ltb_lt in E.
    destruct (score g / 1000 <? newScore / 1000)%Z; simpl; lia.
  - apply Z.ltb_ge in E. lia.
Qed.

(** The claimed count: one difficulty level per 1000-point boundary that
    the score crosses. *)
Definition boundaries_crossed (old new : Z) : Z :=
  (Z.max old new / 1000 - old / 1000)%Z.

(** C3 (as claimed) fails: one call moving the score from 0 to 2500 crosses
    the boundaries 1000 and 2000 but raises the difficulty by one level. *)
Lemma two_boundaries_one_level :
  difficulty (updateScore 2500 sample_game) = 2%Z /\
  boundaries_crossed (score sample_game) 2500 = 2%Z /\
  ~ (forall n g, difficulty (updateScore n g) =
                 (difficulty g + boundaries_crossed (score g) n)%Z).
Proof.
  split; [reflexivity|]. split; [reflexivity|].
  intros H. specialize (H 2500%Z sample_game). vm_compute in H. discriminate.
Qed.

(** C3 (as the code does it).  [updateScore(newScore)] raises the difficulty
    by exactly one level when the call crosses at least one 1000-point
    boundary (whatever their number) and leaves it unchanged otherwise, so
    the difficulty never decreases. *)
Theorem updateScore_difficulty (newScore : Z) (g : Game) :
  difficulty (updateScore newScore g) =
    (difficulty g +
     if (score g <? newScore) && (score g / 1000 <? newScore / 1000)
     then 1 else 0)%Z /\
  (difficulty g <= difficulty (updateScore newScore g))%Z /\
  ((boundaries_crossed (score g) newScore >= 1)%Z ->
   difficulty (updateScore newScore g) = (difficulty g + 1)%Z).
Proof.
  unfold updateScore, boundaries_crossed.
  destruct (score g <? newScore)%Z eqn:E.
  - apply Z.ltb_lt in E. rewrite Z.max_r by lia.
    destruct (score g / 1000 <? newScore / 1000)%Z eqn:F; simpl.
    + repeat split; intros; lia.
    + apply Z.ltb_ge in F. repeat split; intros; lia.
  - apply Z.ltb_ge in E. rewrite Z.max_l by lia. simpl.
    repeat split; intros; lia.
Qed.

Lemma updateScore_difficulty_witness :
  (boundaries_crossed (score sample_game) 2500 >= 1)%Z /\
  difficulty (updateScore 2500 sample_game) = (difficulty sample_game + 1)%Z.
Proof.
  split; [vm_compute; discriminate|].
  apply (proj2 (proj2 (updateScore_difficulty 2500 sample_game))).
  vm_compute. discriminate.
Defined.

(** ** C4: the collision scan *)

Section Collision_proofs.

Variable h : Player.Player -> Platform -> Player.Player * Platform * bool.

Lemma scan_stops (b : Q) (ps : list Platform) :
  forall pl i,
  let '(_, _, collided, calls) := scan h b pl ps i in
  resolved_only_last calls = true /\ collided = existsb snd calls.
Proof.
  induction ps as [|p ps IH]; intros pl i; simpl; [split; reflexivity|].
  destruct (collision_test b pl p).
  - destruct (h pl p) as [[pl1 p1] res].
    destruct res; [simpl; split; reflexivity|].
    specialize (IH pl1 (S i)).
    destruct (scan h b pl1 ps (S i)) as [[[pl2 ps2] c] calls].
    destruct IH as [IH1 IH2]. simpl. split; [|exact IH2].
    destruct calls; [reflexivity|exact IH1].
  - specialize (IH pl (S i)).
    destruct (scan h b pl ps (S i)) as [[[pl2 ps2] c] calls]. exact IH.
Qed.

Lemma resolved_only_last_count (calls : list (nat * bool)) :
  resolved_only_last calls = true -> (count_resolved calls <= 1)%nat.
Proof.
  unfold count_resolved.
  induction calls as [|[i bi] rest IH]; simpl; [lia|].
  destruct rest as [|c rest]; [destruct bi; simpl; lia|].
  intros H. apply andb_true_iff in H. destruct H as [Hb H].
  destruct bi; [discriminate|]. apply IH. exact H.
Qed.

Lemma scan_resolving_handler (b : Q) (ps : list Platform) :
  (forall pl p, snd (h pl p) = true) ->
  forall pl i,
  let '(_, _, collided, calls) := scan h b pl ps i in
  calls = match first_index (collision_test b pl) ps i with
          | Some j => [(j, true)] | None => [] end /\
  collided = match first_index (collision_test b pl) ps i with
             | Some _ => true | None => false end.
Proof.
  intros Hh. induction ps as [|p ps IH]; intros pl i; simpl;
    [split; reflexivity|].
  destruct (collision_test b pl p).
  - specialize (Hh pl p). destruct (h pl p) as [[pl1 p1] res].
    simpl in Hh. subst res. split; reflexivity.
  - specialize (IH pl (S i)).
    destruct (scan h b pl ps (S i)) as [[[pl2 ps2] c] calls]. exact IH.
Qed.

(** C4.  For any [onPlatformCollision] handler: a player that is not
    falling ([velocityY <= 0], in particular one moving upward) gets [false]
    and no handler call, and nothing changes.  A falling player gets at most
    one resolved collision: the scan stops at the first handler call that
    reports one, and the result says whether one was resolved.  With a
    handler that resolves every hit, the only call is on the first platform
    in list order that passes the tests, whether or not it is the nearest. *)
Theorem checkCollisions_first_hit (pl : Player.Player) (ps : list Platform) :
  (Player.velocityY pl <= 0 -> checkCollisions h pl ps = (pl, ps, false, [])) /\
  (let '(_, _, collided, calls) := checkCollisions h pl ps in
   resolved_only_last calls = true /\ (count_resolved calls <= 1)%nat /\
   collided = existsb snd calls) /\
  ((forall pl' p, snd (h pl' p) = true) -> 0 < Player.velocityY pl ->
   let '(_, _, collided, calls) := checkCollisions h pl ps in
   let first := first_index (collision_test (Player.y pl + Player.height pl) pl)
                  ps 0 in
   calls = match first with Some j => [(j, true)] | None => [] end /\
   collided = match first with Some _ => true | None => false end).
Proof.
  unfold checkCollisions. split; [|split].
  - intros Hv. apply qle_spec in Hv. rewrite Hv. reflexivity.
  - destruct (qle (Player.velocityY pl) 0).
    + simpl. repeat split. unfold count_resolved. simpl. lia.
    + pose proof (scan_stops (Player.y pl + Player.height pl) ps pl 0) as H.
      destruct (scan h _ pl ps 0) as [[[pl2 ps2] c] calls].
      destruct H as [H1 H2]. repeat split; try assumption.
      apply resolved_only_last_count. exact H1.
  - intros Hh Hv.
    destruct (qle (Player.velocityY pl) 0) eqn:E.
    + apply qle_spec in E. lra.
    + apply (scan_resolving_handler _ ps Hh pl 0).
Qed.

End Collision_proofs.

Lemma checkCollisions_first_hit_witness :
  checkCollisions jump_handler
    (Player.set_physics (1#2) (-15) {| Player.x := 100; Player.y := 400;
       Player.width := 60; Player.height := 100; Player.velocityX := 0;
       Player.velocityY := -4; Player.gravity := 1#2; Player.jumpForce := -15;
       Player.isAlive := true |}) two_platforms =
  (Player.set_physics (1#2) (-15) {| Player.x := 100; Player.y := 400;
       Player.width := 60; Player.height := 100; Player.velocityX := 0;
       Player.velocityY := -4; Player.gravity := 1#2; Player.jumpForce := -15;
       Player.isAlive := true |}, two_platforms, false, []) /\
  (let '(_, _, collided, calls) :=
     checkCollisions jump_handler falling_player two_platforms in
   calls = [(1%nat, true)] /\ collided = true).
Proof.
  split.
  - apply (checkCollisions_first_hit jump_handler). vm_compute. discriminate.
  - pose proof (proj2 (proj2 (checkCollisions_first_hit jump_handler
                                falling_player two_platforms))
                  (fun _ _ => eq_refl) ltac:(vm_compute; reflexivity)) as H.
    destruct (checkCollisions jump_handler falling_player two_platforms)
      as [[[pl' ps'] c] calls].
    vm_compute in H. exact H.
Defined.

(** ** C5: the camera's easing constant *)

(** C5 (as claimed) fails: the constant used while falling is the smaller
    one. *)
Lemma falling_easing_is_smaller :
  camera_easing 1 = 5#100 /\ camera_easing (-1) = 1#10 /\
  ~ (forall vF vR, 0 < vF -> vR < 0 -> camera_easing vR < camera_easing vF).
Proof.
  split; [reflexivity|]. split; [reflexivity|].
  intros H. specialize (H 1 (-1) ltac:(lra) ltac:(lra)).
  vm_compute in H. discriminate.
Qed.

(** C5 (as the code does it).  [updateCamera] eases [camera.y] toward the
    new target with constant 0.05 when the player is falling
    ([velocityY > 0]) and 0.1 otherwise, so downward camera motion uses the
    smaller constant and is tracked more slowly. *)
Theorem updateCamera_easing (ease : Q -> Q -> Q -> Q) (g : Game) :
  Camera.y (camera (updateCamera ease g)) =
    ease (Camera.y (camera g)) (Camera.targetY (camera (updateCamera ease g)))
         (camera_easing (Player.velocityY (player g))) /\
  (0 < Player.velocityY (player g) ->
   camera_easing (Player.velocityY (player g)) = 5#100) /\
  (Player.velocityY (player g) <= 0 ->
   camera_easing (Player.velocityY (player g)) = 1#10) /\
  5#100 < 1#10.
Proof.
  unfold updateCamera, camera_easing.
  split; [destruct (qlt (canvas_height g + 50) _); reflexivity|].
  split; [|split].
  - intros Hv. apply qlt_spec in Hv. rewrite Hv. reflexivity.
  - intros Hv. destruct (qlt 0 _) eqn:E; [|reflexivity].
    apply qlt_spec in E. lra.
  - vm_compute. reflexivity.
Qed.

Lemma updateCamera_easing_witness :
  camera_easing (Player.velocityY falling_player) = 5#100 /\
  camera_easing (Player.velocityY (Player.create 0 0 60 100)) = 1#10.
Proof.
  split.
  - apply (proj1 (proj2 (updateCamera_easing (fun a _ _ => a)
             (set_entities falling_player sample_manager
                (enemyManager sample_game) sample_game)))).
    vm_compute. reflexivity.
  - apply (proj1 (proj2 (proj2 (updateCamera_easing (fun a _ _ => a)
             sample_game)))).
    vm_compute. discriminate.
Defined.

(** ** C7: restart *)

(** C7.  [restart] sets the score to 0, the difficulty to 1 and the camera's
    [y] and [targetY] to 0, clears the game-over flag, and re-creates the
    entities: a fresh player at its starting place and a fresh platform
    manager whose platform list ends with a platform directly under the
    player. *)
Theorem restart_resets (newEnemyManager : Q -> Q -> EnemyManager)
    (r : EntityRand) (g : Game) :
  let g' := restart newEnemyManager r g in
  score g' = 0%Z /\ difficulty g' = 1%Z /\ lastDifficultyIncrease g' = 0%Z /\
  Camera.y (camera g') = 0 /\ Camera.targetY (camera g') = 0 /\
  isGameOver g' = false /\ isRunning g' = true /\
  player g' = Player.create (canvas_width g / 2 - 30) (canvas_height g - 150)
                            60 100 /\
  exists p, platforms (platformManager g') =
              platforms (newPlatformManager (canvas_width g) (canvas_height g)
                           15 (e_manager r)) ++ [p] /\
            directly_under (player g') p.
Proof.
  unfold restart, initEntities, updateScore.
  cbn -[newPlatformManager].
  repeat split.
  eexists. split; [reflexivity|].
  unfold directly_under. cbn -[newPlatformManager]. repeat split; lra.
Qed.

(** ** C8: emergency recovery of the player *)

Module Recovery_proofs.
Import Recovery.

Lemma sub_nan_l (b : num) : sub NaN b = NaN.
Proof. destruct b; reflexivity. Qed.

Lemma sub_nan_r (a : num) : sub a NaN = NaN.
Proof. destruct a; reflexivity. Qed.

Lemma lt_nan_l (b : num) : lt NaN b = false.
Proof. destruct b; reflexivity. Qed.

Lemma lt_nan_r (a : num) : lt a NaN = false.
Proof. destruct a; reflexivity. Qed.

(** C8 (as claimed) fails: an infinite [y] ends the game and is not reset,
    and an infinite velocity is left as it is. *)
Lemma infinite_values_not_recovered :
  isAlive (recoverPlayerIfNeeded infinite_y_state) = false /\
  py (recoverPlayerIfNeeded infinite_y_state) = PInf /\
  recoverPlayerIfNeeded infinite_v_state = infinite_v_state /\
  ~ (forall s, some_non_finite s = true ->
     recoverPlayerIfNeeded s = reset_player s).
Proof.
  split; [reflexivity|]. split; [reflexivity|]. split; [reflexivity|].
  intros H. specialize (H infinite_v_state eq_refl).
  vm_compute in H. discriminate.
Qed.

(** C8 (as the code does it).  When the player's position or velocity is
    NaN and the vertical off-screen test does not fire, which is always the
    case when [y] or [camera.y] is NaN, [recoverPlayerIfNeeded] puts the
    player at the horizontal centre, at [camera.y + 0.7 * height], with
    [velocityX = 0] and [velocityY = jumpForce * 0.5], and keeps it alive.
    Without NaN it leaves [y] and the velocity as they are (an infinite
    value included), and an infinite [y] under a finite camera ends the game.
    An infinite [x] (no NaN, vertical test not firing) is only re-centred:
    [x] becomes [canvas.width / 2 - width / 2], and [y], the velocity and the
    alive flag are kept. *)
Ltac unfold_recovery :=
  cbv beta iota zeta delta [recoverPlayerIfNeeded set_player offscreen some_nan
    reset_player px py pvx pvy pwidth jumpForce isAlive cameraY cw ch].

Theorem recover_nan_player (s : State) :
  (some_nan s = true -> offscreen s = false ->
   recoverPlayerIfNeeded s = reset_player s) /\
  (isNaN (py s) = true \/ isNaN (cameraY s) = true -> offscreen s = false) /\
  (some_nan s = false ->
   py (recoverPlayerIfNeeded s) = py s /\
   pvx (recoverPlayerIfNeeded s) = pvx s /\
   pvy (recoverPlayerIfNeeded s) = pvy s) /\
  ((py s = PInf \/ py s = NInf) -> finite (cameraY s) = true ->
   isAlive (recoverPlayerIfNeeded s) = false) /\
  ((px s = PInf \/ px s = NInf) -> some_nan s = false -> offscreen s = false ->
   recoverPlayerIfNeeded s
   = set_player (Fin (cw s / 2 - pwidth s / 2)) (py s) (pvx s) (pvy s)
                (isAlive s) s).
Proof.
  destruct s as [x0 y0 vx vy w jf alive cy cw0 ch0].
  unfold_recovery.
  split; [|split; [|split; [|split]]].
  - intros Hn Hoff.
    destruct (lt x0 (Fin (- w * 2)) || lt (Fin (cw0 + w * 2)) x0) eqn:Eh;
      unfold_recovery; rewrite Hoff.
    + assert (Hx : isNaN x0 = false).
      { destruct x0; try reflexivity. rewrite lt_nan_l in Eh. discriminate. }
      rewrite Hx in Hn. cbn [isNaN orb] in Hn |- *. rewrite Hn. reflexivity.
    + rewrite Hn. reflexivity.
  - intros [Hy | Hc].
    + destruct y0; try discriminate. rewrite sub_nan_l, lt_nan_l, lt_nan_r.
      reflexivity.
    + destruct cy; try discriminate. rewrite sub_nan_r, lt_nan_l, lt_nan_r.
      reflexivity.
  - intros Hn.
    destruct (lt x0 (Fin (- w * 2)) || lt (Fin (cw0 + w * 2)) x0) eqn:Eh;
      unfold_recovery;
      destruct (lt (sub y0 cy) (Fin (- ch0)) || lt (Fin (ch0 * 2)) (sub y0 cy));
      unfold_recovery; try (repeat split; fail).
    + assert (Hx : isNaN x0 = false).
      { destruct x0; try reflexivity. rewrite lt_nan_l in Eh. discriminate. }
      rewrite Hx in Hn. cbn [isNaN orb] in Hn |- *. rewrite Hn. repeat split.
    + rewrite Hn. repeat split.
  - intros Hy Hc. destruct cy as [c| | |]; try discriminate.
    destruct (lt x0 (Fin (- w * 2)) || lt (Fin (cw0 + w * 2)) x0);
      unfold_recovery;
      destruct Hy as [Hy|Hy]; subst y0; reflexivity.
  - intros Hx Hn Hoff.
    assert (Eh : lt x0 (Fin (- w * 2)) || lt (Fin (cw0 + w * 2)) x0 = true)
      by (destruct Hx as [Hx|Hx]; subst x0; reflexivity).
    rewrite Eh. unfold_recovery. rewrite Hoff.
    assert (Hx' : isNaN x0 = false)
      by (destruct Hx as [Hx|Hx]; subst x0; reflexivity).
    rewrite Hx' in Hn. cbn [isNaN orb] in Hn |- *. rewrite Hn. reflexivity.
Qed.

Lemma recover_nan_player_witness :
  recoverPlayerIfNeeded nan_x_state = reset_player nan_x_state /\
  isAlive (recoverPlayerIfNeeded infinite_y_state) = false /\
  recoverPlayerIfNeeded infinite_x_state
  = set_player (Fin (400 / 2 - 60 / 2)) (Fin 300) (Fin 0) (Fin 3) true
               infinite_x_state.
Proof.
  split; [|split].
  - apply (proj1 (recover_nan_player nan_x_state)); reflexivity.
  - apply (proj1 (proj2 (proj2 (proj2 (recover_nan_player infinite_y_state))))).
    + left. reflexivity.
    + reflexivity.
  - apply (proj2 (proj2 (proj2 (proj2 (recover_nan_player infinite_x_state))))).
    + left. reflexivity.
    + reflexivity.
    + reflexivity.
Defined.

End Recovery_proofs.

Lemma platform_update_frame_witness :
  x (platform_update 16 400 (newPlatform 50 300 80 20 bouncy 0)) = 50 /\
  active (platform_update 16 400 (newPlatform 50 300 80 20 bouncy 0)) = true.
Proof.
  pose proof (platform_update_frame 16 400 (newPlatform 50 300 80 20 bouncy 0))
    as [_ [_ [_ [_ [Hx Ha]]]]].
  split.
  - apply Hx. simpl. discriminate.
  - apply (Ha ltac:(right; left; reflexivity)).
Defined.

(** ** Further properties *)

Lemma inject_S (n : nat) :
  inject_Z (Z.of_nat (S n)) == inject_Z (Z.of_nat n) + 1.
Proof. rewrite Nat2Z.inj_succ. unfold Z.succ. rewrite inject_Z_plus. reflexivity. Qed.

Lemma inject_nonneg (n : nat) : 0 <= inject_Z (Z.of_nat n).
Proof. change 0 with (inject_Z 0). rewrite <- Zle_Qle. lia. Qed.

(** *** Platform life cycles *)

(** A broken [breakable] platform, [n] frames after [Platform.break()] with
    a positive time step: its break progress is [0.01 + n * dt * 0.05], its
    opacity is one minus the progress, and it is still active exactly when it
    was active before and the progress is below one; it stays [breakable]. *)
Theorem broken_platform_fades (dt cw : Q) (p : Platform) (n : nat) :
  type p = breakable -> 0 < dt ->
  let p' := updates n dt cw (platform_break p) in
  type p' = breakable /\
  breakProgress p' == (1#100) + inject_Z (Z.of_nat n) * (dt * (5#100)) /\
  active p' = active p && qlt (breakProgress p') 1 /\
  ((0 < n)%nat -> opacity p' = 1 - breakProgress p').
Proof.
  intros Ht Hdt. simpl.
  induction n as [|n [IHt [IHb [IHa IHo]]]].
  - simpl. unfold platform_break. rewrite Ht. simpl.
    split; [reflexivity|]. split; [change (inject_Z 0) with 0; lra|].
    split; [destruct (active p); reflexivity | intros; lia].
  - rewrite inject_S. simpl updates. set (q := updates n dt cw (platform_break p)) in *.
    assert (Hpos : 0 < breakProgress q).
    { rewrite IHb. pose proof (inject_nonneg n).
      assert (0 <= inject_Z (Z.of_nat n) * (dt * (5#100)))
        by (apply Qmult_le_0_compat; lra). lra. }
    unfold platform_update; simpl. rewrite IHt. simpl.
    assert (E : qlt 0 (breakProgress q) = true) by (apply qlt_spec; exact Hpos).
    rewrite E. simpl. repeat split.
    + rewrite IHb. ring.
    + rewrite IHa.
      destruct (qle 1 (breakProgress q + dt * (5#100))) eqn:E1.
      * apply qle_spec in E1.
        destruct (qlt (breakProgress q + dt * (5#100)) 1) eqn:E2;
          [apply qlt_spec in E2; lra|].
        rewrite andb_false_r. reflexivity.
      * assert (H1 : ~ 1 <= breakProgress q + dt * (5#100))
          by (intros H; apply qle_spec in H; congruence).
        assert (E2 : qlt (breakProgress q + dt * (5#100)) 1 = true)
          by (apply qlt_spec; lra).
        assert (E3 : qlt (breakProgress q) 1 = true) by (apply qlt_spec; lra).
        rewrite E2, E3. reflexivity.
Qed.

Lemma broken_platform_fades_witness :
  type sample_breakable = breakable /\ 0 < 16 /\
  active (updates 2 16 400 (platform_break sample_breakable)) = false.
Proof.
  split; [reflexivity|]. split; [lra|].
  destruct (broken_platform_fades 16 400 sample_breakable 2 eq_refl
              ltac:(lra)) as [_ [_ [Ha _]]].
  rewrite Ha. vm_compute. reflexivity.
Defined.

(** A [disappearing] platform, [n] frames after [startDisappearing()] with a
    positive time step: its timer is [0.01 + n * dt], its opacity
    [1 - timer / 60], and it is still active exactly when it was active before
    and the timer is below 60; it stays [disappearing]. *)
Theorem disappearing_platform_fades (dt cw : Q) (p : Platform) (n : nat) :
  type p = disappearing -> 0 < dt ->
  let p' := updates n dt cw (platform_startDisappearing p) in
  type p' = disappearing /\
  disappearTimer p' == (1#100) + inject_Z (Z.of_nat n) * dt /\
  active p' = active p && qlt (disappearTimer p') 60 /\
  ((0 < n)%nat -> opacity p' = 1 - disappearTimer p' / 60).
Proof.
  intros Ht Hdt. simpl.
  induction n as [|n [IHt [IHb [IHa IHo]]]].
  - simpl. unfold platform_startDisappearing. rewrite Ht. simpl.
    split; [reflexivity|]. split; [change (inject_Z 0) with 0; lra|].
    split; [destruct (active p); reflexivity | intros; lia].
  - rewrite inject_S. simpl updates. set (q := updates n dt cw (platform_startDisappearing p)) in *.
    assert (Hpos : 0 < disappearTimer q).
    { rewrite IHb. pose proof (inject_nonneg n).
      assert (0 <= inject_Z (Z.of_nat n) * dt)
        by (apply Qmult_le_0_compat; lra). lra. }
    unfold platform_update; simpl. rewrite IHt. simpl.
    assert (E : qlt 0 (disappearTimer q) = true) by (apply qlt_spec; exact Hpos).
    rewrite E. simpl. repeat split.
    + rewrite IHb. ring.
    + rewrite IHa.
      destruct (qle 60 (disappearTimer q + dt)) eqn:E1.
      * apply qle_spec in E1.
        destruct (qlt (disappearTimer q + dt) 60) eqn:E2;
          [apply qlt_spec in E2; lra|].
        rewrite andb_false_r. reflexivity.
      * assert (H1 : ~ 60 <= disappearTimer q + dt)
          by (intros H; apply qle_spec in H; congruence).
        assert (E2 : qlt (disappearTimer q + dt) 60 = true)
          by (apply qlt_spec; lra).
        assert (E3 : qlt (disappearTimer q) 60 = true) by (apply qlt_spec; lra).
        rewrite E2, E3. reflexivity.
Qed.

Lemma disappearing_platform_fades_witness :
  type sample_disappearing = disappearing /\ 0 < 16 /\
  active (updates 4 16 400 (platform_startDisappearing sample_disappearing))
    = false.
Proof.
  split; [reflexivity|]. split; [lra|].
  destruct (disappearing_platform_fades 16 400 sample_disappearing 4 eq_refl
              ltac:(lra)) as [_ [_ [Ha _]]].
  rewrite Ha. vm_compute. reflexivity.
Defined.

(** A [breakable] platform that was never broken (progress at most 0) and a
    [disappearing] one whose timer never started (at most 0) are left as they
    are by any number of frames, apart from their animation clock: in
    particular they stay active and opaque as they were. *)
Theorem untriggered_platform_unchanged (dt cw : Q) (p : Platform) (n : nat) :
  (type p = breakable /\ breakProgress p <= 0) \/
  (type p = disappearing /\ disappearTimer p <= 0) ->
  let p' := updates n dt cw p in
  x p' = x p /\ y p' = y p /\ type p' = type p /\ active p' = active p /\
  opacity p' = opacity p /\ breakProgress p' = breakProgress p /\
  disappearTimer p' = disappearTimer p.
Proof.
  intros Hp. simpl. induction n as [|n IH]; [simpl; repeat split|].
  simpl updates. set (q := updates n dt cw p) in *.
  destruct IH as [Hx [Hy [Ht [Ha [Ho [Hb Hd]]]]]].
  unfold platform_update; simpl. rewrite Ht.
  destruct Hp as [[Htp Hbp] | [Htp Hdp]]; rewrite Htp; simpl.
  - assert (E : qlt 0 (breakProgress q) = false).
    { destruct (qlt 0 (breakProgress q)) eqn:E; [|reflexivity].
      apply qlt_spec in E. rewrite Hb in E. lra. }
    rewrite E. simpl. rewrite Htp in Ht. repeat split; assumption.
  - assert (E : qlt 0 (disappearTimer q) = false).
    { destruct (qlt 0 (disappearTimer q)) eqn:E; [|reflexivity].
      apply qlt_spec in E. rewrite Hd in E. lra. }
    rewrite E. simpl. rewrite Htp in Ht. repeat split; assumption.
Qed.

Lemma untriggered_platform_unchanged_witness :
  ((type sample_breakable = breakable /\ breakProgress sample_breakable <= 0) \/
   (type sample_breakable = disappearing /\
    disappearTimer sample_breakable <= 0)) /\
  active (updates 100 16 400 sample_breakable) = true.
Proof.
  assert (H : (type sample_breakable = breakable /\
               breakProgress sample_breakable <= 0) \/
              (type sample_breakable = disappearing /\
               disappearTimer sample_breakable <= 0))
    by (left; split; [reflexivity | vm_compute; discriminate]).
  split; [exact H|].
  destruct (untriggered_platform_unchanged 16 400 sample_breakable 100 H)
    as [_ [_ [_ [Ha _]]]].
  rewrite Ha. reflexivity.
Defined.

Lemma qle_false (a b : Q) : qle a b = false -> b < a.
Proof.
  intros H. apply Qnot_le_lt. intros H'. apply qle_spec in H'. congruence.
Qed.

Lemma qlt_false (a b : Q) : qlt a b = false -> b <= a.
Proof.
  intros H. apply Qnot_lt_le. intros H'. apply qlt_spec in H'. congruence.
Qed.

Ltac qbools :=
  repeat match goal with
         | H : qle _ _ = true |- _ => apply qle_spec in H
         | H : qlt _ _ = true |- _ => apply qlt_spec in H
         | H : qle _ _ = false |- _ => apply qle_false in H
         | H : qlt _ _ = false |- _ => apply qlt_false in H
         end.

Lemma moving_invariant (dt cw : Q) (p : Platform) (n : nat) :
  type p = moving -> (direction p == 1 \/ direction p == -1) ->
  maxVelocityX p = 2 -> 0 <= x p -> x p + width p <= cw ->
  let q := updates n dt cw p in
  type q = moving /\ maxVelocityX q = 2 /\ width q = width p /\
  ((direction q == 1 /\ x q + width q <= cw) \/
   (direction q == -1 /\ 0 <= x q)) /\
  -2 <= x q /\ x q + width q <= cw + 2.
Proof.
  intros Ht Hd Hm Hx0 Hx1. simpl. induction n as [|n IH].
  - simpl. split; [exact Ht|]. split; [exact Hm|]. split; [reflexivity|].
    split; [destruct Hd; [left | right]; split; assumption|]. split; lra.
  - simpl updates. set (q := updates n dt cw p) in *.
    destruct IH as [Hqt [Hqm [Hqw [Hdir [Hl Hr]]]]].
    unfold platform_update; simpl. rewrite Hqt. simpl. rewrite Hqm.
    rewrite Hqw in *.
    destruct (qle (x q + direction q * 2) 0) eqn:E1;
    destruct (qle cw (x q + direction q * 2 + width p)) eqn:E2;
      simpl; qbools; repeat split; try reflexivity;
      destruct Hdir as [[Hd1 Hb] | [Hd1 Hb]]; try lra;
      first [ right; split; lra | left; split; lra ].
Qed.

(** A [moving] platform that starts inside the canvas with a direction of
    [1] or [-1] and the constructor's speed of 2 never leaves the canvas by
    more than its 2 px step, whatever the number of frames. *)
Theorem moving_platform_stays_near_canvas (dt cw : Q) (p : Platform) (n : nat) :
  type p = moving -> (direction p == 1 \/ direction p == -1) ->
  maxVelocityX p = 2 -> 0 <= x p -> x p + width p <= cw ->
  let p' := updates n dt cw p in
  -2 <= x p' /\ x p' + width p' <= cw + 2.
Proof.
  intros Ht Hd Hm Hx0 Hx1.
  destruct (moving_invariant dt cw p n Ht Hd Hm Hx0 Hx1)
    as [_ [_ [_ [_ H]]]].
  exact H.
Qed.

Lemma moving_platform_stays_near_canvas_witness :
  type sample_moving = moving /\
  (direction sample_moving == 1 \/ direction sample_moving == -1) /\
  maxVelocityX sample_moving = 2 /\ 0 <= x sample_moving /\
  x sample_moving + width sample_moving <= 400 /\
  -2 <= x (updates 150 16 400 sample_moving).
Proof.
  assert (Hd : direction sample_moving == 1 \/ direction sample_moving == -1)
    by (right; reflexivity).
  split; [reflexivity|]. split; [exact Hd|]. split; [reflexivity|].
  split; [unfold sample_moving, newPlatform; simpl; lra|].
  split; [unfold sample_moving, newPlatform; simpl; lra|].
  exact (proj1 (moving_platform_stays_near_canvas 16 400 sample_moving 150
                  eq_refl Hd eq_refl ltac:(unfold sample_moving, newPlatform; simpl; lra)
                  ltac:(unfold sample_moving, newPlatform; simpl; lra))).
Defined.

(** *** Placement and type of a generated platform *)

(** With uniform width and position draws and [minWidth <= maxWidth <=
    canvasWidth], [generatePlatform] returns an active platform whose width
    lies in [[minWidth, maxWidth]], which lies horizontally inside the
    canvas, whose height is [platformHeight], and which is appended to the
    list. *)
Theorem generated_platform_in_canvas (m : Manager) (r : GenRand) :
  unit_draw (r_width r) -> unit_draw (r_x r) ->
  minWidth m <= maxWidth m -> maxWidth m <= canvasWidth m ->
  let '(m', p) := generatePlatform m r in
  minWidth m <= width p <= maxWidth m /\
  0 <= x p /\ x p + width p <= canvasWidth m /\
  height p = platformHeight m /\ active p = true /\
  platforms m' = platforms m ++ [p].
Proof.
  intros Hw Hx Hle Hc. unfold generatePlatform; simpl.
  pose proof (randomBetween_bounds _ _ _ Hw Hle) as Hb.
  set (w := randomBetween (r_width r) (minWidth m) (maxWidth m)) in *.
  assert (Hb2 : 0 <= randomBetween (r_x r) 0 (canvasWidth m - w)
                  <= canvasWidth m - w)
    by (apply randomBetween_bounds; [exact Hx | lra]).
  repeat split; lra.
Qed.

Lemma generated_platform_in_canvas_witness :
  unit_draw (r_width half_gen) /\ unit_draw (r_x half_gen) /\
  minWidth sample_manager <= maxWidth sample_manager /\
  maxWidth sample_manager <= canvasWidth sample_manager /\
  0 <= x (snd (generatePlatform sample_manager half_gen)).
Proof.
  assert (Hu : unit_draw (1#2)) by (unfold unit_draw; lra).
  assert (H1 : minWidth sample_manager <= maxWidth sample_manager)
    by (vm_compute; discriminate).
  assert (H2 : maxWidth sample_manager <= canvasWidth sample_manager)
    by (vm_compute; discriminate).
  split; [exact Hu|]. split; [exact Hu|]. split; [exact H1|]. split; [exact H2|].
  pose proof (generated_platform_in_canvas sample_manager half_gen Hu Hu H1 H2)
    as H.
  destruct (generatePlatform sample_manager half_gen) as [m' p].
  simpl. exact (proj1 (proj2 H)).
Defined.

(** Below score 300 (a platform less than 3000 px above the origin),
    [generatePlatform] never produces a [breakable] or a [disappearing]
    platform. *)
Theorem early_platforms_not_fragile (m : Manager) (r : GenRand) :
  let '(m', p) := generatePlatform m r in
  Qabs (y p) / 10 < 300 -> type p <> breakable /\ type p <> disappearing.
Proof.
  cbv beta iota zeta delta [generatePlatform newPlatform type y select_type].
  intros H. set (S := Qabs _ / 10) in *.
  assert (E1 : qlt S 300 = true) by (apply qlt_spec; exact H).
  assert (E2 : qle 300 S = false)
    by (destruct (qle 300 S) eqn:E; [apply qle_spec in E; lra | reflexivity]).
  unfold special_type. rewrite E1, E2. rewrite andb_false_l.
  destruct_ifs; split; discriminate.
Qed.

Lemma early_platforms_not_fragile_witness :
  Qabs (y (snd (generatePlatform sample_manager half_gen))) / 10 < 300 /\
  type (snd (generatePlatform sample_manager half_gen)) <> breakable.
Proof.
  assert (Hl : Qabs (y (snd (generatePlatform sample_manager half_gen))) / 10
               < 300) by (vm_compute; reflexivity).
  split; [exact Hl|].
  pose proof (early_platforms_not_fragile sample_manager half_gen) as H.
  revert Hl. destruct (generatePlatform sample_manager half_gen) as [m' p].
  simpl. intros Hl. exact (proj1 (H Hl)).
Defined.

Lemma platforms_set_highest (h : Q) (m : Manager) :
  platforms (set_highestPlatformY h m) = platforms m.
Proof. reflexivity. Qed.

(** In the score 300-310 window (platforms 3000 to 3100 px up),
    [generatePlatform] produces only [normal] and [bouncy] platforms. *)
Theorem window_platforms_plain (m : Manager) (r : GenRand) :
  let '(m', p) := generatePlatform m r in
  300 <= Qabs (y p) / 10 <= 310 -> type p = normal \/ type p = bouncy.
Proof.
  cbv beta iota zeta delta [generatePlatform newPlatform type y select_type].
  intros [H1 H2]. set (S := Qabs _ / 10) in *.
  assert (E1 : qle 300 S = true) by (apply qle_spec; exact H1).
  assert (E2 : qle S 310 = true) by (apply qle_spec; exact H2).
  rewrite E1, E2. cbn [andb].
  destruct_ifs; auto.
Qed.

Lemma window_platforms_plain_witness :
  300 <= Qabs (y (snd (generatePlatform window_manager half_gen))) / 10 <= 310 /\
  (type (snd (generatePlatform window_manager half_gen)) = normal \/
   type (snd (generatePlatform window_manager half_gen)) = bouncy).
Proof.
  assert (Hl : 300 <= Qabs (y (snd (generatePlatform window_manager half_gen)))
                       / 10 <= 310) by (split; vm_compute; discriminate).
  split; [exact Hl|].
  pose proof (window_platforms_plain window_manager half_gen) as H.
  revert Hl. destruct (generatePlatform window_manager half_gen) as [m' p].
  simpl. intros Hl. exact (H Hl).
Defined.

(** When the last three entries of the list include both a [breakable] and a
    [disappearing] platform, [generatePlatform] does not produce a
    [breakable] one. *)
Theorem no_breakable_after_both (m : Manager) (r : GenRand) :
  includes breakable (map type (slice_last 3 (platforms m))) = true ->
  includes disappearing (map type (slice_last 3 (platforms m))) = true ->
  type (snd (generatePlatform m r)) <> breakable.
Proof.
  intros Hb Hd.
  unfold generatePlatform, newPlatform, select_type. cbn [snd type].
  rewrite platforms_set_highest, Hb, Hd.
  destruct (special_type _ (r_rand r)); cbn [ptype_eqb andb];
    destruct_ifs; discriminate.
Qed.

Lemma no_breakable_after_both_witness :
  includes breakable (map type (slice_last 3 (platforms mixed_manager))) = true /\
  includes disappearing (map type (slice_last 3 (platforms mixed_manager)))
    = true /\
  type (snd (generatePlatform mixed_manager half_gen)) <> breakable.
Proof.
  split; [vm_compute; reflexivity|]. split; [vm_compute; reflexivity|].
  apply no_breakable_after_both; vm_compute; reflexivity.
Defined.

(** A special-type draw of [0.6] or more always gives a [normal] platform:
    the special chance is capped at 60 %. *)
Theorem special_chance_capped (m : Manager) (r : GenRand) :
  6#10 <= r_special r -> type (snd (generatePlatform m r)) = normal.
Proof.
  intros H.
  unfold generatePlatform, newPlatform, select_type. cbn [snd type].
  set (c := Qmin (6#10) _).
  assert (Hc : c <= 6#10) by apply Q.le_min_l.
  assert (E : qlt (r_special r) c = false)
    by (destruct (qlt (r_special r) c) eqn:E;
        [apply qlt_spec in E; lra | reflexivity]).
  rewrite E. reflexivity.
Qed.

Lemma special_chance_capped_witness :
  6#10 <= r_special (mkGenRand (1#2) (1#2) (1#2) (7#10) (1#2) (1#2) (1#2) (1#2))
  /\ type (snd (generatePlatform window_manager
                  (mkGenRand (1#2) (1#2) (1#2) (7#10) (1#2) (1#2) (1#2) (1#2))))
     = normal.
Proof.
  split; [vm_compute; discriminate|].
  apply special_chance_capped. vm_compute. discriminate.
Defined.

(** *** Invariants of the platform list *)

Lemma platform_update_y (dt cw : Q) (p : Platform) :
  y (platform_update dt cw p) = y p.
Proof.
  unfold platform_update. destruct (type p); simpl; try reflexivity;
    destruct_ifs; reflexivity.
Qed.

Lemma gen_while_shape (fuel : nat) (target : Q) (rs : nat -> GenRand) :
  forall k m m' gen,
  gen_while fuel target rs k m = Some (m', gen) ->
  m' = set_highestPlatformY (highestPlatformY m')
         (set_platforms (platforms m ++ gen) m) /\
  all_active gen /\ qlt target (highestPlatformY m') = false.
Proof.
  induction fuel as [|f IH]; intros k m m' gen Hrun.
  - simpl in Hrun. destruct (qlt target (highestPlatformY m)) eqn:E;
      [discriminate|].
    inversion Hrun; subst. rewrite app_nil_r.
    split; [destruct m'; reflexivity|]. split; [constructor | exact E].
  - rewrite gen_while_S in Hrun.
    destruct (qlt target (highestPlatformY m)) eqn:E.
    + destruct (generatePlatform m (rs k)) as [m1 p] eqn:Eg.
      destruct (gen_while f target rs (S k) m1) as [[m2 ps]|] eqn:Er;
        [|discriminate].
      inversion Hrun; subst m' gen.
      destruct (IH (S k) m1 m2 ps Er) as [Hm2 [Ha Hq]].
      unfold generatePlatform in Eg. inversion Eg; subst m1 p.
      split; [|split; [constructor; [reflexivity | exact Ha] | exact Hq]].
      rewrite Hm2 at 1. unfold set_highestPlatformY, set_platforms,
        push_platform. simpl. rewrite <- app_assoc. reflexivity.
    + inversion Hrun; subst. rewrite app_nil_r.
      split; [destruct m'; reflexivity|]. split; [constructor | exact E].
Qed.

Lemma fill_platform_active (m : Manager) (cy : Q) (r : FillRand) :
  active (fill_platform m cy r) = true.
Proof. reflexivity. Qed.

(** After a frame's [PlatformManager.update], every platform in the list is
    active: inactive ones are spliced out, and the generated and filler
    platforms are new. *)
Theorem update_all_active (fuel : nat) (dt cy : Q) (rs : nat -> GenRand)
    (fills : FillRand * FillRand) (m m' : Manager) :
  update fuel dt cy rs fills m = Some m' -> all_active (platforms m').
Proof.
  unfold update, update_gen. intros Hu.
  destruct (gen_while fuel _ rs 0 (update_existing dt cy m))
    as [[m1 g1]|] eqn:Ew; [|discriminate].
  simpl in Hu. inversion Hu; subst m'. clear Hu.
  destruct (gen_while_shape _ _ _ _ _ _ _ Ew) as [Hm1 [Ha _]].
  assert (H1 : all_active (platforms m1)).
  { rewrite Hm1. simpl. unfold all_active. apply Forall_app. split; [|exact Ha].
    apply Forall_forall. intros p Hp. simpl in Hp. apply filter_In in Hp.
    destruct Hp as [_ Hk]. unfold keep_platform in Hk.
    apply andb_true_iff in Hk. exact (proj1 Hk). }
  unfold density_fill. destruct (qlt _ _); [|exact H1].
  unfold push_platform, set_platforms; simpl.
  unfold all_active. repeat (apply Forall_app; split); try exact H1;
    repeat constructor.
Qed.

Lemma update_all_active_witness :
  let m' := match update 50 16 0 (fun _ => half_gen) (half_fill, half_fill)
                    sample_manager with Some m => m | None => sample_manager end in
  update 50 16 0 (fun _ => half_gen) (half_fill, half_fill) sample_manager
    = Some m' /\ all_active (platforms m').
Proof.
  intros m'.
  assert (E : update 50 16 0 (fun _ => half_gen) (half_fill, half_fill)
                sample_manager = Some m') by (vm_compute; reflexivity).
  split; [exact E|]. exact (update_all_active _ _ _ _ _ _ _ E).
Defined.

Lemma generate_topmost (m : Manager) (r : GenRand) :
  frontier_topmost m -> unit_draw (r_gap r) -> 0 <= minGapY m <= maxGapY m ->
  frontier_topmost (fst (generatePlatform m r)) /\
  highestPlatformY (fst (generatePlatform m r)) <= highestPlatformY m /\
  minGapY (fst (generatePlatform m r)) = minGapY m /\
  maxGapY (fst (generatePlatform m r)) = maxGapY m /\
  length (platforms (fst (generatePlatform m r)))
    = S (length (platforms m)) /\
  (forall p, hd_error (platforms m) = Some p ->
   hd_error (platforms (fst (generatePlatform m r))) = Some p).
Proof.
  intros Ht Hu [H0 Hle].
  pose proof (generatePlatform_facts m r) as Hg.
  destruct (generatePlatform m r) as [m1 p] eqn:Eg. simpl.
  destruct Hg as [Hy [Hh [Hmin [Hmax [_ Hps]]]]].
  pose proof (randomBetween_bounds _ _ _ Hu Hle) as Hb.
  assert (Hle1 : highestPlatformY m1 <= highestPlatformY m) by (rewrite Hh, Hy; lra).
  split; [|split; [exact Hle1|]].
  - unfold frontier_topmost in *. rewrite Hps. apply Forall_app. split.
    + eapply Forall_impl; [|exact Ht]. intros q Hq. simpl in Hq. lra.
    + constructor; [rewrite Hh; lra | constructor].
  - split; [exact Hmin|]. split; [exact Hmax|]. rewrite Hps, length_app.
    simpl. split; [lia|]. intros q Hq. destruct (platforms m); [discriminate|].
    exact Hq.
Qed.

Lemma gen_while_topmost (fuel : nat) (target : Q) (rs : nat -> GenRand) :
  forall k m m' gen,
  frontier_topmost m -> (forall j, unit_draw (r_gap (rs j))) ->
  0 <= minGapY m <= maxGapY m ->
  gen_while fuel target rs k m = Some (m', gen) ->
  frontier_topmost m'.
Proof.
  induction fuel as [|f IH]; intros k m m' gen Ht Hu Hg Hrun.
  - simpl in Hrun. destruct (qlt target (highestPlatformY m)); [discriminate|].
    inversion Hrun; subst. exact Ht.
  - rewrite gen_while_S in Hrun.
    destruct (qlt target (highestPlatformY m)).
    + destruct (generate_topmost m (rs k) Ht (Hu k) Hg)
        as [Ht1 [_ [Hmin [Hmax _]]]].
      destruct (generatePlatform m (rs k)) as [m1 p] eqn:Eg. simpl in *.
      destruct (gen_while f target rs (S k) m1) as [[m2 ps]|] eqn:Er;
        [|discriminate].
      inversion Hrun; subst m' gen.
      apply (IH (S k) m1 m2 ps Ht1 Hu); [rewrite Hmin, Hmax; exact Hg | exact Er].
    + inversion Hrun; subst. exact Ht.
Qed.

(** [highestPlatformY] stays the topmost [y] through a frame's
    [PlatformManager.update], given gap draws in [0, 1], [0 <= minGapY <=
    maxGapY], a canvas of at least 200 px and filler draws in [0, 1]: the
    loop moves the frontier up past every new platform, and the filler
    platforms land below the camera's look-ahead, hence below the frontier. *)
Theorem update_keeps_frontier_topmost (fuel : nat) (dt cy : Q)
    (rs : nat -> GenRand) (fills : FillRand * FillRand) (m m' : Manager) :
  frontier_topmost m -> (forall j, unit_draw (r_gap (rs j))) ->
  0 <= minGapY m <= maxGapY m -> 200 <= canvasHeight m ->
  unit_draw (f_y (fst fills)) -> unit_draw (f_y (snd fills)) ->
  update fuel dt cy rs fills m = Some m' -> frontier_topmost m'.
Proof.
  intros Ht Hu Hg Hh Hf1 Hf2. unfold update, update_gen. intros Hup.
  destruct (gen_while fuel _ rs 0 (update_existing dt cy m))
    as [[m1 g1]|] eqn:Ew; [|discriminate].
  simpl in Hup. inversion Hup; subst m'. clear Hup.
  assert (Ht0 : frontier_topmost (update_existing dt cy m)).
  { unfold frontier_topmost in *. simpl. apply Forall_forall. intros p Hp.
    apply filter_In in Hp. destruct Hp as [Hp _].
    apply in_map_iff in Hp. destruct Hp as [q [Eq Hq]]. subst p.
    rewrite platform_update_y. rewrite Forall_forall in Ht. exact (Ht q Hq). }
  pose proof (gen_while_topmost _ _ _ _ _ _ _ Ht0 Hu Hg Ew) as Ht1.
  destruct (gen_while_shape _ _ _ _ _ _ _ Ew) as [Hm1 [_ Hq]].
  apply qlt_false in Hq.
  assert (Hch : canvasHeight m1 = canvasHeight m) by (rewrite Hm1; reflexivity).
  change (canvasHeight (update_existing dt cy m)) with (canvasHeight m) in Hq.
  unfold density_fill. destruct (qlt _ _); [|exact Ht1].
  unfold frontier_topmost in *. unfold push_platform, set_platforms; simpl.
  assert (Hfill : forall r, unit_draw (f_y r) ->
            highestPlatformY m1 <= y (fill_platform m1 cy r)).
  { intros r [Hr0 Hr1]. unfold fill_platform, randomBetween. simpl.
    rewrite Hch.
    assert (0 <= f_y r * (canvasHeight m - 100 - 100))
      by (apply Qmult_le_0_compat; lra).
    lra. }
  repeat (apply Forall_app; split); try exact Ht1; constructor;
    try constructor.
  - apply Hfill. exact Hf1.
  - unfold fill_platform at 1. apply (Hfill (snd fills) Hf2).
Qed.

Lemma topmost_of_bool (m : Manager) :
  forallb (fun p => qle (highestPlatformY m) (y p)) (platforms m) = true ->
  frontier_topmost m.
Proof.
  intros H. unfold frontier_topmost. apply Forall_forall. intros p Hp.
  rewrite forallb_forall in H. apply qle_spec. exact (H p Hp).
Qed.

Lemma update_keeps_frontier_topmost_witness :
  let m' := match update 50 16 0 (fun _ => half_gen) (half_fill, half_fill)
                    sample_manager with Some m => m | None => sample_manager end in
  frontier_topmost sample_manager /\
  update 50 16 0 (fun _ => half_gen) (half_fill, half_fill) sample_manager
    = Some m' /\ frontier_topmost m'.
Proof.
  intros m'.
  assert (Ht : frontier_topmost sample_manager)
    by (apply topmost_of_bool; vm_compute; reflexivity).
  assert (E : update 50 16 0 (fun _ => half_gen) (half_fill, half_fill)
                sample_manager = Some m') by (vm_compute; reflexivity).
  assert (Hu : forall j : nat, unit_draw (r_gap ((fun _ => half_gen) j)))
    by (intros j; unfold unit_draw; simpl; lra).
  assert (Hf : unit_draw (f_y half_fill)) by (unfold unit_draw; simpl; lra).
  split; [exact Ht|]. split; [exact E|].
  apply (update_keeps_frontier_topmost 50 16 0 (fun _ => half_gen)
           (half_fill, half_fill) sample_manager m' Ht Hu
           ltac:(vm_compute; split; discriminate)
           ltac:(vm_compute; discriminate) Hf Hf E).
Defined.

Lemma initial_rows_shape (n : nat) :
  forall i draws m,
  frontier_topmost m ->
  let m' := initial_rows n i draws m in
  frontier_topmost m' /\ length (platforms m') = (length (platforms m) + n)%nat /\
  minGapY m' = minGapY m /\ maxGapY m' = maxGapY m /\
  (forall p, hd_error (platforms m) = Some p -> hd_error (platforms m') = Some p).
Proof.
  induction n as [|n IH]; intros i draws m Ht.
  - simpl. split; [exact Ht|]. split; [lia|]. auto.
  - cbn [initial_rows]. cbv zeta.
    match goal with |- context [initial_rows n (S i) draws ?M] => set (m1 := M) end.
    assert (Ht1 : frontier_topmost m1).
    { unfold frontier_topmost in *. subst m1.
      cbn [highestPlatformY platforms set_highestPlatformY push_platform
           set_platforms y newPlatform].
      apply Forall_app. split.
      - eapply Forall_impl; [|exact Ht]. intros q Hq. simpl in Hq.
        match goal with |- Qmin _ ?v <= _ =>
          pose proof (Q.le_min_l (highestPlatformY m) v) end. lra.
      - constructor; [apply Q.le_min_r | constructor]. }
    destruct (IH (S i) draws m1 Ht1) as [H1 [H2 [H3 [H4 H5]]]].
    split; [exact H1|]. split.
    + rewrite H2. subst m1. simpl. rewrite length_app. simpl. lia.
    + split; [exact H3|]. split; [exact H4|]. intros p Hp. apply H5.
      subst m1. simpl. destruct (platforms m); [discriminate | exact Hp].
Qed.

Lemma generate_n_shape (n : nat) (rs : nat -> GenRand) :
  forall k m,
  frontier_topmost m -> (forall j, unit_draw (r_gap (rs j))) ->
  0 <= minGapY m <= maxGapY m ->
  let m' := generate_n n rs k m in
  frontier_topmost m' /\ length (platforms m') = (length (platforms m) + n)%nat /\
  (forall p, hd_error (platforms m) = Some p -> hd_error (platforms m') = Some p).
Proof.
  induction n as [|n IH]; intros k m Ht Hu Hg.
  - simpl. split; [exact Ht|]. split; [lia | auto].
  - cbn [generate_n]. destruct (generate_topmost m (rs k) Ht (Hu k) Hg)
      as [Ht1 [_ [Hmin [Hmax [Hl Hhd]]]]].
    destruct (IH (S k) (fst (generatePlatform m (rs k))) Ht1 Hu
                ltac:(rewrite Hmin, Hmax; exact Hg)) as [H1 [H2 H3]].
    split; [exact H1|]. split; [rewrite H2, Hl; lia|].
    intros p Hp. apply H3, Hhd, Hp.
Qed.

(** [new PlatformManager(cw, ch)] (with gap draws in [0, 1]) holds
    [count + 5] platforms for [count >= 1] (six for [count = 0]), the
    150 px starting platform at [(cw / 2 - 75, ch - 100)] first, and its
    [highestPlatformY] is the topmost [y] among them. *)
Theorem newPlatformManager_shape (cw ch : Q) (count : nat) (r : InitRand) :
  (forall j, unit_draw (r_gap (i_gen r j))) ->
  let m := newPlatformManager cw ch count r in
  frontier_topmost m /\ length (platforms m) = (6 + (count - 1))%nat /\
  hd_error (platforms m)
    = Some (newPlatform (cw / 2 - 75) (ch - 100) 150 20 normal (i_start_dir r)).
Proof.
  intros Hu. cbv beta zeta delta [newPlatformManager generateInitialPlatforms].
  cbn [canvasWidth canvasHeight platformHeight manager_fields y newPlatform].
  set (m0 := set_highestPlatformY (ch - 100)
               (push_platform (newPlatform (cw / 2 - 75) (ch - 100) 150 20
                                 normal (i_start_dir r)) (manager_fields cw ch))).
  assert (Ht0 : frontier_topmost m0).
  { unfold frontier_topmost, m0. cbn. constructor; [apply Qle_refl | constructor]. }
  destruct (initial_rows_shape 5 0 (i_rows r) m0 Ht0) as [Ht1 [Hl1 [Hmin [Hmax Hh1]]]].
  destruct (generate_n_shape (count + 5 - 6) (i_gen r) 0 (initial_rows 5 0 (i_rows r) m0)
              Ht1 Hu ltac:(rewrite Hmin, Hmax; simpl; lra)) as [Ht2 [Hl2 Hh2]].
  split; [exact Ht2|]. split.
  - rewrite Hl2, Hl1. simpl. lia.
  - apply Hh2, Hh1. reflexivity.
Qed.

Lemma newPlatformManager_shape_witness :
  (forall j, unit_draw (r_gap (i_gen half_init j))) /\
  length (platforms sample_manager) = 20%nat.
Proof.
  assert (Hu : forall j, unit_draw (r_gap (i_gen half_init j)))
    by (intros j; unfold unit_draw; simpl; lra).
  split; [exact Hu|].
  destruct (newPlatformManager_shape 400 600 15 half_init Hu) as [_ [Hl _]].
  exact Hl.
Defined.

(** *** Difficulty scaling *)

Ltac qminmax :=
  repeat match goal with
         | |- context [Qmin ?a ?b] =>
             let H := fresh "Hmin" in let E := fresh "Emin" in
             destruct (Q.min_spec a b) as [[H E]|[H E]]; rewrite E in *; clear E
         | |- context [Qmax ?a ?b] =>
             let H := fresh "Hmax" in let E := fresh "Emax" in
             destruct (Q.max_spec a b) as [[H E]|[H E]]; rewrite E in *; clear E
         end.


(** Raising the level never loosens the platform parameters: for [d1 <= d2]
    the density, both widths and the platform height at [d2] are at most
    those at [d1]; from level 6 on they sit at their floors 5, 20, 80 and 10. *)
Theorem difficulty_ratchet (d1 d2 : Z) (m : Manager) :
  (d1 <= d2)%Z ->
  let m1 := manager_difficulty d1 m in
  let m2 := manager_difficulty d2 m in
  density m2 <= density m1 /\ minWidth m2 <= minWidth m1 /\
  maxWidth m2 <= maxWidth m1 /\ platformHeight m2 <= platformHeight m1 /\
  ((6 <= d2)%Z -> density m2 == 5 /\ minWidth m2 == 20 /\
                  maxWidth m2 == 80 /\ platformHeight m2 == 10).
Proof.
  intros Hd. unfold manager_difficulty. cbn.
  assert (Hq : inject_Z d1 <= inject_Z d2) by (rewrite <- Zle_Qle; exact Hd).
  set (q1 := inject_Z d1) in *. set (q2 := inject_Z d2) in *.
  split; [|split; [|split; [|split]]].
  1-4: qminmax; lra.
  intros H6.
  assert (H6q : 6 <= q2) by (unfold q2; change 6 with (inject_Z 6); rewrite <- Zle_Qle; exact H6).
  repeat split; qminmax; lra.
Qed.

Lemma difficulty_ratchet_witness :
  (3 <= 7)%Z /\
  minWidth (manager_difficulty 7 sample_manager)
    <= minWidth (manager_difficulty 3 sample_manager).
Proof.
  split; [lia|].
  exact (proj1 (proj2 (difficulty_ratchet 3 7 sample_manager ltac:(lia)))).
Defined.

(** *** Score and camera *)

Lemma updateScore_score (newScore : Z) (g : Game) :
  score (updateScore newScore g) = Z.max (score g) newScore.
Proof.
  unfold updateScore. destruct (score g <? newScore)%Z eqn:E.
  - apply Z.ltb_lt in E. destruct_ifs; simpl; lia.
  - apply Z.ltb_ge in E. lia.
Qed.

Lemma updateScore_noop (newScore : Z) (g : Game) :
  (newScore <= score g)%Z -> updateScore newScore g = g.
Proof.
  intros H. unfold updateScore.
  destruct (score g <? newScore)%Z eqn:E; [apply Z.ltb_lt in E; lia | reflexivity].
Qed.

(** Reporting the same score twice has the effect of reporting it once. *)
Theorem updateScore_idempotent (newScore : Z) (g : Game) :
  updateScore newScore (updateScore newScore g) = updateScore newScore g.
Proof. apply updateScore_noop. rewrite updateScore_score. lia. Qed.

(** [updateScore] moves nothing: the camera position and target, the
    player's position, velocity and alive flag, the platform list and the
    frontier, the run flags and the canvas are as before. *)
Theorem updateScore_frame (newScore : Z) (g : Game) :
  let g' := updateScore newScore g in
  Camera.y (camera g') = Camera.y (camera g) /\
  Camera.targetY (camera g') = Camera.targetY (camera g) /\
  Player.x (player g') = Player.x (player g) /\
  Player.y (player g') = Player.y (player g) /\
  Player.velocityX (player g') = Player.velocityX (player g) /\
  Player.velocityY (player g') = Player.velocityY (player g) /\
  Player.isAlive (player g') = Player.isAlive (player g) /\
  platforms (platformManager g') = platforms (platformManager g) /\
  highestPlatformY (platformManager g') = highestPlatformY (platformManager g) /\
  isRunning g' = isRunning g /\ isGameOver g' = isGameOver g /\
  canvas_width g' = canvas_width g /\ canvas_height g' = canvas_height g.
Proof.
  unfold updateScore. destruct_ifs; cbn; repeat split.
Qed.

(** While the player is in the bottom fifth of the screen, [updateCamera]
    never sets a target below the camera: the camera does not follow a
    falling player down. *)
Theorem updateCamera_no_chase_down (ease : Q -> Q -> Q -> Q) (g : Game) :
  canvas_height g * (8#10) < Player.y (player g) - Camera.y (camera g) ->
  Camera.targetY (camera (updateCamera ease g)) <= Camera.y (camera g).
Proof.
  intros H. unfold updateCamera. cbv zeta.
  assert (E : qlt (canvas_height g * (8#10))
                  (Player.y (player g) - Camera.y (camera g)) = true)
    by (apply qlt_spec; exact H).
  rewrite E. cbn [andb].
  destruct (qlt (canvas_height g + 50) _); cbn;
    destruct_ifs; qbools; lra.
Qed.

Lemma updateCamera_no_chase_down_witness :
  canvas_height low_game * (8#10)
    < Player.y (player low_game) - Camera.y (camera low_game) /\
  Camera.targetY (camera (updateCamera linear_ease low_game))
    <= Camera.y (camera low_game).
Proof.
  assert (H : canvas_height low_game * (8#10)
              < Player.y (player low_game) - Camera.y (camera low_game))
    by (vm_compute; reflexivity).
  split; [exact H|]. exact (updateCamera_no_chase_down linear_ease low_game H).
Defined.

(** [updateCamera] leaves the player's position and velocity, the platforms
    and the score alone; the player ends up alive exactly when it was alive
    and is not more than 50 px below the bottom edge of the screen. *)
Theorem updateCamera_frame (ease : Q -> Q -> Q -> Q) (g : Game) :
  let g' := updateCamera ease g in
  let screenY := Player.y (player g) - Camera.y (camera g) in
  Player.x (player g') = Player.x (player g) /\
  Player.y (player g') = Player.y (player g) /\
  Player.velocityY (player g') = Player.velocityY (player g) /\
  Player.isAlive (player g')
    = Player.isAlive (player g) && negb (qlt (canvas_height g + 50) screenY) /\
  platformManager g' = platformManager g /\ score g' = score g.
Proof.
  unfold updateCamera. cbv zeta.
  destruct (qlt (canvas_height g + 50) _); cbn; repeat split.
  - destruct (Player.isAlive (player g)); reflexivity.
  - destruct (Player.isAlive (player g)); reflexivity.
Qed.

(** *** Recovery of a finite player *)

Module Recovery_extra.
Import Recovery.

(** A finite player within two widths of the canvas sides and within the
    vertical window [[-canvas height, 2 * canvas height]] of the camera is
    left exactly as it is by [recoverPlayerIfNeeded]. *)
Theorem recover_finite_noop (s : State) (x0 y0 vx vy c : Q) :
  px s = Fin x0 -> py s = Fin y0 -> pvx s = Fin vx -> pvy s = Fin vy ->
  cameraY s = Fin c ->
  - pwidth s * 2 <= x0 <= cw s + pwidth s * 2 ->
  - ch s <= y0 - c <= ch s * 2 ->
  recoverPlayerIfNeeded s = s.
Proof.
  intros Hx Hy Hvx Hvy Hc [Hx1 Hx2] [Hy1 Hy2].
  unfold recoverPlayerIfNeeded. cbv zeta.
  rewrite Hx. cbn [lt].
  assert (E1 : qlt x0 (- pwidth s * 2) = false)
    by (destruct (qlt x0 (- pwidth s * 2)) eqn:E; [qbools; lra | reflexivity]).
  assert (E2 : qlt (cw s + pwidth s * 2) x0 = false)
    by (destruct (qlt (cw s + pwidth s * 2) x0) eqn:E;
        [qbools; lra | reflexivity]).
  rewrite E1, E2. cbn [orb].
  rewrite Hy, Hc. cbn [sub add neg lt].
  assert (E3 : qlt (y0 + - c) (- ch s) = false)
    by (destruct (qlt (y0 + - c) (- ch s)) eqn:E; [qbools; lra | reflexivity]).
  assert (E4 : qlt (ch s * 2) (y0 + - c) = false)
    by (destruct (qlt (ch s * 2) (y0 + - c)) eqn:E; [qbools; lra | reflexivity]).
  rewrite E3, E4. cbn [orb].
  rewrite Hx, Hvx, Hvy. reflexivity.
Qed.

Lemma recover_finite_noop_witness :
  let s := mkState (Fin 170) (Fin 300) (Fin 0) (Fin 3) 60 (-15) true (Fin 0)
             400 600 in
  recoverPlayerIfNeeded s = s.
Proof.
  intros s.
  apply (recover_finite_noop s 170 300 0 3 0); try reflexivity;
    unfold s; simpl; split; lra.
Defined.

(** [recoverPlayerIfNeeded] never brings a dead player back to life. *)
Theorem recover_never_revives (s : State) :
  isAlive (recoverPlayerIfNeeded s) = true -> isAlive s = true.
Proof.
  unfold recoverPlayerIfNeeded. cbv zeta. destruct_ifs; simpl; auto;
    intros H; discriminate.
Qed.

Lemma recover_never_revives_witness :
  isAlive (recoverPlayerIfNeeded nan_x_state) = true /\ isAlive nan_x_state = true.
Proof.
  assert (H : isAlive (recoverPlayerIfNeeded nan_x_state) = true)
    by (vm_compute; reflexivity).
  split; [exact H|]. exact (recover_never_revives nan_x_state H).
Defined.

End Recovery_extra.

(** *** Resizing *)

(** After [resizeCanvas] to a window at least as wide as the player, the
    player lies horizontally inside the canvas, it is shown at 70 % of the
    screen height with the camera settled on its target, and the canvas and
    the platform manager carry the window's size. *)
Theorem resizeCanvas_player_in_view (W H : Q) (g : Game) :
  0 <= Player.width (player g) <= W ->
  let g' := resizeCanvas W H g in
  0 <= Player.x (player g') /\
  Player.x (player g') + Player.width (player g') <= W /\
  Player.y (player g') - Camera.y (camera g') == H * (7#10) /\
  Camera.targetY (camera g') = Camera.y (camera g') /\
  canvas_width g' = W /\ canvas_height g' = H /\
  canvasWidth (platformManager g') = W /\ canvasHeight (platformManager g') = H.
Proof.
  intros [Hw0 Hw1].
  unfold resizeCanvas, force_camera, adjustEntitiesForResize. cbv zeta.
  destruct (qle W 430 && qlt W H); cbn;
    destruct (qlt _ 0 || qlt H _); cbn;
    repeat split; try reflexivity; try ring; qminmax; lra.
Qed.

Lemma resizeCanvas_player_in_view_witness :
  0 <= Player.width (player sample_game) <= 360 /\
  0 <= Player.x (player (resizeCanvas 360 640 sample_game)).
Proof.
  assert (H : 0 <= Player.width (player sample_game) <= 360)
    by (vm_compute; split; discriminate).
  split; [exact H|]. exact (proj1 (resizeCanvas_player_in_view 360 640 sample_game H)).
Defined.

(** The mobile-portrait camera shift of [adjustEntitiesForResize] has no
    effect on the result of [resizeCanvas]: the forced camera update that
    follows it overwrites the camera, and the player was placed before the
    shift. *)
Theorem resize_mobile_shift_overwritten (isPortrait isMobile : bool) (g : Game) :
  force_camera (adjustEntitiesForResize isPortrait isMobile g)
  = force_camera (adjustEntitiesForResize false false g).
Proof.
  unfold adjustEntitiesForResize. cbv zeta.
  destruct (isMobile && isPortrait); reflexivity.
Qed.

(** *** Leaderboard ranking *)

Section Leaderboard_proofs.

Variable User : Type.
Variable highScore : User -> Z.

Let ranked (a b : User) : Prop := (highScore b <= highScore a)%Z.

Lemma insert_user_perm (u : User) (l : list User) :
  Permutation (u :: l) (insert_user User highScore u l).
Proof.
  induction l as [|v l IH]; simpl; [reflexivity|].
  destruct (highScore v <? highScore u)%Z; [reflexivity|].
  eapply perm_trans; [apply perm_swap|]. apply perm_skip. exact IH.
Qed.

Lemma insert_user_hd (u v : User) (l : list User) :
  HdRel ranked v l -> ranked v u -> HdRel ranked v (insert_user User highScore u l).
Proof.
  intros Hh Hvu. destruct l as [|w l]; simpl; [constructor; exact Hvu|].
  destruct (highScore w <? highScore u)%Z; constructor; [exact Hvu|].
  inversion Hh; assumption.
Qed.

Lemma insert_user_sorted (u : User) (l : list User) :
  Sorted ranked l -> Sorted ranked (insert_user User highScore u l).
Proof.
  induction l as [|v l IH]; intros Hs; simpl; [repeat constructor|].
  destruct (highScore v <? highScore u)%Z eqn:E.
  - apply Z.ltb_lt in E. constructor; [exact Hs|]. constructor. unfold ranked. lia.
  - apply Z.ltb_ge in E. inversion Hs as [|? ? Hs' Hh]; subst.
    constructor; [apply IH; exact Hs'|]. apply insert_user_hd; [exact Hh|].
    unfold ranked. lia.
Qed.

Lemma sort_users_facts (l : list User) :
  forall acc, Sorted ranked acc ->
  Sorted ranked (fold_left (fun acc u => insert_user User highScore u acc) l acc) /\
  Permutation (acc ++ l)
    (fold_left (fun acc u => insert_user User highScore u acc) l acc).
Proof.
  induction l as [|u l IH]; intros acc Hs; simpl.
  - rewrite app_nil_r. split; [exact Hs | reflexivity].
  - destruct (IH (insert_user User highScore u acc) (insert_user_sorted u acc Hs))
      as [H1 H2].
    split; [exact H1|]. eapply perm_trans; [|exact H2].
    apply (perm_trans (l' := (u :: acc) ++ l)).
    + apply Permutation_sym, Permutation_middle.
    + apply Permutation_app_tail. apply insert_user_perm.
Qed.

Lemma strongly_sorted_app (l1 l2 : list User) (a b : User) :
  StronglySorted ranked (l1 ++ l2) -> In a l1 -> In b l2 -> ranked a b.
Proof.
  induction l1 as [|c l1 IH]; intros Hs Ha Hb; [destruct Ha|].
  inversion Hs as [|? ? Hs' Hf]; subst. destruct Ha as [<- | Ha].
  - rewrite Forall_forall in Hf. apply Hf. apply in_or_app. right. exact Hb.
  - apply IH; assumption.
Qed.

End Leaderboard_proofs.

(** [loadLeaderboardData] ranks the users it received: [sortedUsers] holds
    exactly the users of [data.users] (none when the field is missing), by
    non-increasing high score. *)
Theorem leaderboard_sorted (User : Type) (highScore : User -> Z)
    (users : option (list User)) :
  let sortedUsers := snd (loadLeaderboard User highScore users) in
  Sorted (fun a b => (highScore b <= highScore a)%Z) sortedUsers /\
  Permutation (match users with Some l => l | None => [] end) sortedUsers.
Proof.
  unfold loadLeaderboard, sort_users. simpl.
  destruct (sort_users_facts User highScore
              (match users with Some l => l | None => [] end) []
              ltac:(constructor)) as [H1 H2].
  split; [exact H1 | exact H2].
Qed.

(** The ten users shown ([topUsers]) are the first ten of the ranking (all
    of them when there are fewer), and each of them has a high score at
    least that of every user not shown. *)
Theorem leaderboard_top_ten (User : Type) (highScore : User -> Z)
    (users : option (list User)) :
  let '(topUsers, sortedUsers) := loadLeaderboard User highScore users in
  length topUsers = Nat.min 10 (length sortedUsers) /\
  topUsers ++ skipn 10 sortedUsers = sortedUsers /\
  (forall a b, In a topUsers -> In b (skipn 10 sortedUsers) ->
   (highScore b <= highScore a)%Z).
Proof.
  cbv beta iota zeta delta [loadLeaderboard sort_users].
  destruct (sort_users_facts User highScore
              (match users with Some l => l | None => [] end) []
              ltac:(constructor)) as [H1 _].
  set (s := fold_left _ _ []) in *.
  split; [apply length_firstn|]. split; [apply firstn_skipn|].
  intros a b Ha Hb.
  apply (strongly_sorted_app User highScore (firstn 10 s) (skipn 10 s)); auto.
  rewrite firstn_skipn. apply Sorted_StronglySorted; [|exact H1].
  intros u v w Huv Hvw. simpl in *. lia.
Qed.

(** *** Number formatting *)

Lemma uint_chars_digits (u : Decimal.uint) (c : Ascii.ascii) :
  In c (uint_chars u) -> c <> ","%char /\ c <> "-"%char.
Proof.
  induction u; simpl; intros H; try contradiction;
    destruct H as [<- | H]; try (split; discriminate); auto.
Qed.

Lemma strip_no_comma (ds : list Ascii.ascii) :
  (forall c, In c ds -> c <> ","%char) -> strip_commas ds = ds.
Proof.
  induction ds as [|d ds IH]; intros H; simpl; [reflexivity|].
  destruct (Ascii.eqb d ","%char) eqn:E.
  - apply Ascii.eqb_eq in E. exfalso. apply (H d); [left; reflexivity | exact E].
  - simpl. f_equal. apply IH. intros c Hc. apply H. right. exact Hc.
Qed.

Lemma strip_group (ds : list Ascii.ascii) :
  strip_commas (group_digits ds) = strip_commas ds.
Proof.
  induction ds as [|d ds IH]; [reflexivity|].
  unfold strip_commas in *. cbn [group_digits].
  destruct (_ && _); simpl; rewrite IH; reflexivity.
Qed.

(** [formatNumber] only inserts commas: removing them gives back
    [num.toString()]. *)
Theorem formatNumber_roundtrip (n : Z) :
  strip_commas (formatNumber n) = toString n.
Proof.
  assert (Hu : forall u, strip_commas (group_digits (uint_chars u)) = uint_chars u).
  { intros u. rewrite strip_group. apply strip_no_comma. intros c Hc.
    exact (proj1 (uint_chars_digits u c Hc)). }
  destruct n as [|p|p]; [apply Hu | apply Hu |].
  unfold formatNumber, toString.
  change (strip_commas ("-"%char :: group_digits (uint_chars (Pos.to_uint p))))
    with ("-"%char :: strip_commas (group_digits (uint_chars (Pos.to_uint p)))).
  rewrite Hu. reflexivity.
Qed.




(** *** Background clouds *)

Lemma cloud_move_band (W : Q) (c : Cloud.Cloud) :
  0 <= W -> 0 <= Cloud.width c /\ 0 <= Cloud.speed c /\
            - Cloud.width c <= Cloud.x c <= W ->
  let c' := cloud_move W c in
  0 <= Cloud.width c' /\ 0 <= Cloud.speed c' /\ - Cloud.width c' <= Cloud.x c' <= W.
Proof.
  intros HW [Hw [Hs [Hl Hr]]]. unfold cloud_move; cbn.
  destruct (qlt W (Cloud.x c + Cloud.speed c * (1#10))) eqn:E; qbools;
    repeat split; lra.
Qed.

Lemma updateBackground_facts (W H cy : Q) (r : CloudRand) (cs : list Cloud.Cloud) :
  0 <= W -> unit_draw (c_x r) -> unit_draw (c_width r) -> unit_draw (c_speed r) ->
  clouds_in_band W cs ->
  clouds_in_band W (updateBackground W H cy r cs) /\
  length (updateBackground W H cy r cs)
    = (if Nat.ltb (length cs) 10 then S (length cs) else length cs).
Proof.
  intros HW Hx Hw Hs Hb. unfold updateBackground, clouds_in_band in *.
  assert (Hm : Forall (fun c => 0 <= Cloud.width c /\ 0 <= Cloud.speed c /\
                  - Cloud.width c <= Cloud.x c <= W) (map (cloud_move W) cs)).
  { apply Forall_map. eapply Forall_impl; [|exact Hb].
    intros c Hc. exact (cloud_move_band W c HW Hc). }
  rewrite length_map. destruct (Nat.ltb (length cs) 10).
  - split; [|rewrite length_app, length_map; simpl; lia].
    apply Forall_app. split; [exact Hm|]. constructor; [|constructor].
    pose proof (randomBetween_bounds (c_x r) (-50) W Hx ltac:(lra)).
    pose proof (randomBetween_bounds _ 50 150 Hw ltac:(lra)).
    pose proof (randomBetween_bounds _ (3#100) (1#10) Hs ltac:(lra)).
    cbn. repeat split; lra.
  - split; [exact Hm | rewrite length_map; reflexivity].
Qed.

(** From the ten clouds of [generateClouds], any number of frames of
    [updateBackground] keeps exactly ten clouds (the cloud it would add below
    ten is never added), and every cloud stays between one width left of
    the canvas and its right edge, given uniform draws and [0 <= W]. *)
Theorem clouds_after_construction (n : nat) (W H : Q) (cameraYs : nat -> Q)
    (draws : nat -> GenCloudRand) (rs : nat -> CloudRand) :
  0 <= W ->
  (forall i, unit_draw (g_x (draws i)) /\ unit_draw (g_width (draws i)) /\
             unit_draw (g_speed (draws i))) ->
  (forall k, unit_draw (c_x (rs k)) /\ unit_draw (c_width (rs k)) /\
             unit_draw (c_speed (rs k))) ->
  let cs := background_frames n W H cameraYs rs (generateClouds W H draws []) in
  length cs = 10%nat /\ clouds_in_band W cs.
Proof.
  intros HW Hd Hr. simpl. induction n as [|n [IHl IHb]].
  - simpl. split; [reflexivity|].
    unfold clouds_in_band. apply Forall_map, Forall_forall. intros i _.
    destruct (Hd i) as [[Hx0 Hx1] [Hw Hs]].
    pose proof (randomBetween_bounds _ 50 150 Hw ltac:(lra)).
    pose proof (randomBetween_bounds _ (3#100) (1#10) Hs ltac:(lra)).
    assert (0 <= g_x (draws i) * W) by (apply Qmult_le_0_compat; lra).
    assert (g_x (draws i) * W <= 1 * W) by (apply Qmult_le_compat_r; lra).
    cbn. repeat split; lra.
  - cbn [background_frames].
    destruct (Hr n) as [Hx [Hw Hs]].
    destruct (updateBackground_facts W H (cameraYs n) (rs n) _ HW Hx Hw Hs IHb)
      as [Hb Hl].
    rewrite IHl in Hl. simpl in Hl. split; assumption.
Qed.

Lemma clouds_after_construction_witness :
  (0 <= 400) /\
  length (background_frames 5 400 600 (fun _ => 0) (fun _ => mkCloudRand (1#2) (1#2) (1#2) (1#2))
            (generateClouds 400 600 (fun _ => mkGenCloudRand (1#2) (1#2) (1#2) (1#2) (1#2)) []))
  = 10%nat.
Proof.
  split; [lra|].
  apply (clouds_after_construction 5 400 600 (fun _ => 0)
           (fun _ => mkGenCloudRand (1#2) (1#2) (1#2) (1#2) (1#2))
           (fun _ => mkCloudRand (1#2) (1#2) (1#2) (1#2))); [lra | |];
    intros; unfold unit_draw; simpl; repeat split; lra.
Defined.

(** *** Forced visibility *)


